(** * The action-item extractor popup (src/extension/popup.js)

    A shallow embedding of the popup script: the click handler is a
    computation in a state-and-exception monad over a [World] made of the
    DOM, the server behind [fetch] and the trace of effects performed so
    far.  JavaScript values, property access, string conversion and
    [JSON.stringify] follow ECMAScript on the values [JSON.parse] can
    produce.  The DOM is a map from element ids to elements; the content of
    an element is the markup last assigned to its [innerHTML].  What [fetch]
    and [response.json()] settle to is given by the world, and an activation
    runs to its end before the next one starts. *)

From Stdlib Require Import ZArith NArith List Ascii String DecimalString.
From Stdlib Require Import Floats.SpecFloat.
From stdpp Require Import base option list strings gmap.

Local Open Scope N_scope.

#[local] Set Warnings "-register-all".

(** ** Strings

    A JavaScript string is a sequence of UTF-16 code units. *)

Abbreviation js_string := (list N).

Definition lit (s : string) : js_string :=
  map N_of_ascii (list_ascii_of_string s).

Definition LF : js_string := [10].
Definition DQUOTE : js_string := [34].

(** ** JSON texts

    The JSON documents of RFC 8259 and a decoder for them, as the receiver
    of a request body applies it.  A number keeps its lexeme; the members of
    an object are kept as written. *)

Inductive json_value : Type :=
  | JNull
  | JBool (b : bool)
  | JNumber (lexeme : js_string)
  | JString (s : js_string)
  | JArray (elems : list json_value)
  | JObject (members : list (js_string * json_value)).

Definition is_ws (c : N) : bool :=
  (c =? 32) || (c =? 9) || (c =? 10) || (c =? 13).

Fixpoint skip_ws (s : js_string) : js_string :=
  match s with
  | [] => []
  | c :: rest => if is_ws c then skip_ws rest else s
  end.

Definition hex_value (c : N) : option N :=
  if (48 <=? c) && (c <=? 57) then Some (c - 48)
  else if (97 <=? c) && (c <=? 102) then Some (c - 87)
  else if (65 <=? c) && (c <=? 70) then Some (c - 55)
  else None.

(** The character a backslash and [e] stand for, [\u] apart. *)
Definition unescape (e : N) : option N :=
  if e =? 34 then Some 34
  else if e =? 92 then Some 92
  else if e =? 47 then Some 47
  else if e =? 98 then Some 8
  else if e =? 102 then Some 12
  else if e =? 110 then Some 10
  else if e =? 114 then Some 13
  else if e =? 116 then Some 9
  else None.

(** The characters of a string up to its closing quote, and what follows. *)
Fixpoint parse_chars (s : js_string) : option (js_string * js_string) :=
  match s with
  | [] => None
  | c :: rest =>
      if c =? 34 then Some ([], rest)
      else if c =? 92 then
        match rest with
        | [] => None
        | e :: rest' =>
            if e =? 117 then
              match rest' with
              | h1 :: h2 :: h3 :: h4 :: rest'' =>
                  d1 ← hex_value h1; d2 ← hex_value h2;
                  d3 ← hex_value h3; d4 ← hex_value h4;
                  '(str, r) ← parse_chars rest'';
                  Some ((((d1 * 16 + d2) * 16 + d3) * 16 + d4) :: str, r)
              | _ => None
              end
            else
              ch ← unescape e;
              '(str, r) ← parse_chars rest';
              Some (ch :: str, r)
        end
      else if c <? 32 then None
      else '(str, r) ← parse_chars rest; Some (c :: str, r)
  end.

Definition is_digit (c : N) : bool := (48 <=? c) && (c <=? 57).

Fixpoint take_digits (s : js_string) : js_string * js_string :=
  match s with
  | [] => ([], [])
  | c :: rest =>
      if is_digit c
      then let '(ds, r) := take_digits rest in (c :: ds, r)
      else ([], s)
  end.

(** A number: an optional minus sign, an integer part without a leading
    zero, an optional fraction and an optional exponent. *)
Definition parse_number (s : js_string) : option (js_string * js_string) :=
  let '(sign, s1) :=
    match s with
    | c :: r => if c =? 45 then ([c], r) else ([], s)
    | [] => ([], s)
    end in
  '(int, s2) ←
    match s1 with
    | [] => None
    | c :: r =>
        if c =? 48 then Some ([c], r)
        else if is_digit c then let '(ds, r') := take_digits r in Some (c :: ds, r')
        else None
    end;
  '(frac, s3) ←
    match s2 with
    | c :: r =>
        if c =? 46 then
          match take_digits r with
          | ([], _) => None
          | (ds, r') => Some (c :: ds, r')
          end
        else Some ([], s2)
    | [] => Some ([], s2)
    end;
  '(exp, s4) ←
    match s3 with
    | c :: r =>
        if (c =? 101) || (c =? 69) then
          let '(esign, r1) :=
            match r with
            | d :: r' => if (d =? 43) || (d =? 45) then ([d], r') else ([], r)
            | [] => ([], r)
            end in
          match take_digits r1 with
          | ([], _) => None
          | (ds, r') => Some (c :: esign ++ ds, r')
          end
        else Some ([], s3)
    | [] => Some ([], s3)
    end;
  Some (sign ++ int ++ frac ++ exp, s4).

Fixpoint strip_prefix (p s : js_string) : option js_string :=
  match p, s with
  | [], _ => Some s
  | a :: p', b :: s' => if a =? b then strip_prefix p' s' else None
  | _ :: _, [] => None
  end.

(** Recursive descent; [fuel] bounds the nesting and the number of members,
    and the length of the text is always enough. *)
Fixpoint parse_value (fuel : nat) (s : js_string) {struct fuel}
    : option (json_value * js_string) :=
  match fuel with
  | O => None
  | S fuel' =>
      match skip_ws s with
      | [] => None
      | c :: rest =>
          if c =? 34 then
            '(str, r) ← parse_chars rest; Some (JString str, r)
          else if c =? 123 then
            match skip_ws rest with
            | [] => None
            | d :: r =>
                if d =? 125 then Some (JObject [], r)
                else '(ms, r') ← parse_members fuel' rest; Some (JObject ms, r')
            end
          else if c =? 91 then
            match skip_ws rest with
            | [] => None
            | d :: r =>
                if d =? 93 then Some (JArray [], r)
                else '(vs, r') ← parse_elements fuel' rest; Some (JArray vs, r')
            end
          else if c =? 116 then r ← strip_prefix (lit "rue") rest; Some (JBool true, r)
          else if c =? 102 then r ← strip_prefix (lit "alse") rest; Some (JBool false, r)
          else if c =? 110 then r ← strip_prefix (lit "ull") rest; Some (JNull, r)
          else '(lexeme, r) ← parse_number (c :: rest); Some (JNumber lexeme, r)
      end
  end
with parse_elements (fuel : nat) (s : js_string) {struct fuel}
    : option (list json_value * js_string) :=
  match fuel with
  | O => None
  | S fuel' =>
      '(v, r) ← parse_value fuel' s;
      match skip_ws r with
      | [] => None
      | d :: r' =>
          if d =? 44 then '(vs, r'') ← parse_elements fuel' r'; Some (v :: vs, r'')
          else if d =? 93 then Some ([v], r')
          else None
      end
  end
with parse_members (fuel : nat) (s : js_string) {struct fuel}
    : option (list (js_string * json_value) * js_string) :=
  match fuel with
  | O => None
  | S fuel' =>
      match skip_ws s with
      | [] => None
      | q :: r =>
          if q =? 34 then
            '(k, r1) ← parse_chars r;
            match skip_ws r1 with
            | [] => None
            | colon :: r2 =>
                if colon =? 58 then
                  '(v, r3) ← parse_value fuel' r2;
                  match skip_ws r3 with
                  | [] => None
                  | d :: r4 =>
                      if d =? 44 then
                        '(ms, r5) ← parse_members fuel' r4; Some ((k, v) :: ms, r5)
                      else if d =? 125 then Some ([(k, v)], r4)
                      else None
                  end
                else None
            end
          else None
      end
  end.

(** A JSON text is one value between optional white space. *)
Definition JSON_decode (s : js_string) : option json_value :=
  '(v, rest) ← parse_value (S (length s)) s;
  match skip_ws rest with
  | [] => Some v
  | _ :: _ => None
  end.

(** ** Values

    The values reachable from a parsed JSON body, with [undefined] for
    absent properties.  An object is the list of its own properties; a
    lookup takes the first binding of the key.  Numbers are IEEE 754
    doubles ([spec_float]). *)

Inductive js_value : Type :=
  | VUndefined
  | VNull
  | VBool (b : bool)
  | VNumber (n : spec_float)
  | VString (s : js_string)
  | VArray (elems : list js_value)
  | VObject (props : list (js_string * js_value)).

Inductive exn : Type :=
  | TypeError
  | SyntaxError
  | Error (message : js_string).

Inductive completion (A : Type) : Type :=
  | Normal (a : A)
  | Throw (e : exn).
Arguments Normal {A} a.
Arguments Throw {A} e.

#[global] Instance completion_ret : MRet completion := λ A a, Normal a.
#[global] Instance completion_bind : MBind completion := λ A B f c,
  match c with
  | Normal a => f a
  | Throw e => Throw e
  end.

Fixpoint own_property (props : list (js_string * js_value)) (key : js_string)
    : option js_value :=
  match props with
  | [] => None
  | (k, v) :: rest => if decide (k = key) then Some v else own_property rest key
  end.

Definition number_of_nat (n : nat) : spec_float :=
  match n with
  | O => S754_zero false
  | S _ => S754_finite false (Pos.of_nat n) 0
  end.

(** [v.key] for the property names the handler reads ([items], [length],
    [action], [assignee], [deadline]): none of them is inherited from
    [Object.prototype], [Array.prototype], [String.prototype],
    [Number.prototype] or [Boolean.prototype], except [length] of arrays and
    strings. *)
Definition get_property (v : js_value) (key : string) : completion js_value :=
  match v with
  | VUndefined | VNull => Throw TypeError
  | VBool _ | VNumber _ => Normal VUndefined
  | VString s =>
      if decide (key = "length"%string)
      then Normal (VNumber (number_of_nat (length s)))
      else Normal VUndefined
  | VArray elems =>
      if decide (key = "length"%string)
      then Normal (VNumber (number_of_nat (length elems)))
      else Normal VUndefined
  | VObject props =>
      Normal (default VUndefined (own_property props (lit key)))
  end.

(** [v === n] for a number [n]. *)
Definition strict_equals_number (v : js_value) (n : spec_float) : bool :=
  match v with
  | VNumber m => SFeqb m n
  | _ => false
  end.

Section WithNumberToString.

(** [Number::toString], the shortest decimal that reads back as the double. *)
Variable Number_toString : spec_float → js_string.

(** [Array.prototype.join] with the default separator, [conv] converting
    the elements. *)
Definition join_with (conv : js_value → completion js_string)
    : list js_value → completion js_string :=
  fix join (l : list js_value) : completion js_string :=
    match l with
    | [] => Normal []
    | x :: rest =>
        s ← conv x;
        match rest with
        | [] => Normal s
        | _ :: _ => r ← join rest; Normal (s ++ lit "," ++ r)
        end
    end.

(** [ToString(v)], as a template literal applies it.  An array is joined,
    [undefined] and [null] elements giving the empty string.  An object whose
    own [toString] property shadows [Object.prototype.toString] has no
    callable conversion left ([valueOf] returns the object itself).  The
    conversion runs on an unbounded stack: the [RangeError] an engine raises
    when arrays are nested deeper than its stack allows is not modelled. *)
Fixpoint ToString (v : js_value) : completion js_string :=
  match v with
  | VUndefined => Normal (lit "undefined")
  | VNull => Normal (lit "null")
  | VBool true => Normal (lit "true")
  | VBool false => Normal (lit "false")
  | VNumber n => Normal (Number_toString n)
  | VString s => Normal s
  | VArray elems =>
      join_with (λ x, match x with
                      | VUndefined | VNull => Normal []
                      | _ => ToString x
                      end) elems
  | VObject props =>
      match own_property props (lit "toString") with
      | Some _ => Throw TypeError
      | None => Normal (lit "[object Object]")
      end
  end.

(** ** JSON.stringify *)

Definition is_leading_surrogate (c : N) : bool := (0xD800 <=? c) && (c <=? 0xDBFF).
Definition is_trailing_surrogate (c : N) : bool := (0xDC00 <=? c) && (c <=? 0xDFFF).

Definition hex_digit (d : N) : N := if d <? 10 then 48 + d else 87 + d.

(** [UnicodeEscape]: a backslash, [u] and four lowercase hexadecimal digits. *)
Definition UnicodeEscape (c : N) : js_string :=
  lit "\u" ++ [hex_digit (c / 4096 mod 16); hex_digit (c / 256 mod 16);
               hex_digit (c / 16 mod 16); hex_digit (c mod 16)].

(** The body of [QuoteJSONString]: the string is read by code points, so a
    surrogate pair is copied and a lone surrogate is escaped. *)
Fixpoint quote_code_points (s : js_string) : js_string :=
  match s with
  | [] => []
  | c :: rest =>
      if c =? 8 then lit "\b" ++ quote_code_points rest
      else if c =? 9 then lit "\t" ++ quote_code_points rest
      else if c =? 10 then lit "\n" ++ quote_code_points rest
      else if c =? 12 then lit "\f" ++ quote_code_points rest
      else if c =? 13 then lit "\r" ++ quote_code_points rest
      else if c =? 34 then lit "\" ++ DQUOTE ++ quote_code_points rest
      else if c =? 92 then lit "\\" ++ quote_code_points rest
      else if c <? 32 then UnicodeEscape c ++ quote_code_points rest
      else if is_leading_surrogate c then
        match rest with
        | d :: rest' =>
            if is_trailing_surrogate d
            then c :: d :: quote_code_points rest'
            else UnicodeEscape c ++ quote_code_points rest
        | [] => UnicodeEscape c
        end
      else if is_trailing_surrogate c then UnicodeEscape c ++ quote_code_points rest
      else c :: quote_code_points rest
  end.

Definition QuoteJSONString (s : js_string) : js_string :=
  DQUOTE ++ quote_code_points s ++ DQUOTE.

Definition is_finite (n : spec_float) : bool :=
  match n with
  | S754_zero _ | S754_finite _ _ _ => true
  | S754_infinity _ | S754_nan => false
  end.

Fixpoint join_strings (sep : js_string) (l : list js_string) : js_string :=
  match l with
  | [] => []
  | [s] => s
  | s :: rest => s ++ sep ++ join_strings sep rest
  end.

(** [JSON.stringify(v)] without replacer or indentation; [None] is
    [undefined].  The properties of an object are written in list order. *)
Fixpoint JSON_stringify (v : js_value) : option js_string :=
  match v with
  | VUndefined => None
  | VNull => Some (lit "null")
  | VBool true => Some (lit "true")
  | VBool false => Some (lit "false")
  | VNumber n => Some (if is_finite n then Number_toString n else lit "null")
  | VString s => Some (QuoteJSONString s)
  | VArray elems =>
      Some (lit "[" ++
            join_strings (lit ",")
              (map (λ x, default (lit "null") (JSON_stringify x)) elems) ++
            lit "]")
  | VObject props =>
      Some (lit "{" ++
            join_strings (lit ",")
              ((fix members (l : list (js_string * js_value)) : list js_string :=
                  match l with
                  | [] => []
                  | (k, x) :: rest =>
                      match JSON_stringify x with
                      | Some s => (QuoteJSONString k ++ lit ":" ++ s) :: members rest
                      | None => members rest
                      end
                  end) props) ++
            lit "}")
  end.

(** ** The world: DOM, network and trace *)

Record element : Type := { value : js_string; innerHTML : js_string }.

Record request : Type :=
  { url : js_string;
    method : js_string;
    headers : list (js_string * js_string);
    body : option js_string }.

(** A response: its status code and what [response.json()] settles to. *)
Record response : Type := { status : N; json : completion js_value }.

(** What the promise returned by [fetch] settles to. *)
Inductive fetch_result : Type :=
  | Rejected (reason : exn)
  | Resolved (r : response).

Inductive event : Type :=
  | ReadValue (id : string)
  | WriteInnerHTML (id : string) (html : js_string)
  | Fetch (req : request)
  | ConsoleError (e : exn)
  | UnhandledRejection (e : exn).

(** The server answers a request knowing the requests sent before it. *)
Record World : Type :=
  { dom : gmap string element;
    listeners : list (string * string);
    server : list request → request → fetch_result;
    trace : list event }.

Definition log (ev : event) (w : World) : World :=
  {| dom := dom w; listeners := listeners w; server := server w;
     trace := trace w ++ [ev] |}.

Definition with_dom (d : gmap string element) (w : World) : World :=
  {| dom := d; listeners := listeners w; server := server w; trace := trace w |}.

Fixpoint sent (t : list event) : list request :=
  match t with
  | [] => []
  | Fetch req :: rest => req :: sent rest
  | _ :: rest => sent rest
  end.

(** ** The monad of the script *)

Definition M (A : Type) : Type := World → completion A * World.

#[global] Instance M_ret : MRet M := λ A a w, (Normal a, w).
#[global] Instance M_bind : MBind M := λ A B f m w,
  match m w with
  | (Normal a, w') => f a w'
  | (Throw e, w') => (Throw e, w')
  end.

Definition throw {A : Type} (e : exn) : M A := λ w, (Throw e, w).

Definition lift {A : Type} (c : completion A) : M A := λ w, (c, w).

Definition try_catch {A : Type} (block : M A) (handler : exn → M A) : M A :=
  λ w, match block w with
       | (Normal a, w') => (Normal a, w')
       | (Throw e, w') => handler e w'
       end.

(** ** DOM and network primitives

    An element reference is the element's id; [None] is [null]. *)

Definition getElementById (id : string) : M (option string) :=
  λ w, (Normal (match dom w !! id with Some _ => Some id | None => None end), w).

Definition get_value (el : option string) : M js_string :=
  λ w, match el with
       | None => (Throw TypeError, w)
       | Some id =>
           match dom w !! id with
           | Some e => (Normal (value e), log (ReadValue id) w)
           | None => (Throw TypeError, w)
           end
       end.

Definition set_innerHTML (el : option string) (html : js_string) : M unit :=
  λ w, match el with
       | None => (Throw TypeError, w)
       | Some id =>
           match dom w !! id with
           | Some e =>
               (Normal tt,
                log (WriteInnerHTML id html)
                  (with_dom (<[id := {| value := value e; innerHTML := html |}]> (dom w)) w))
           | None => (Throw TypeError, w)
           end
       end.

Definition addEventListener (el : option string) (type : string) : M unit :=
  λ w, match el with
       | None => (Throw TypeError, w)
       | Some id =>
           (Normal tt,
            {| dom := dom w; listeners := listeners w ++ [(id, type)];
               server := server w; trace := trace w |})
       end.

Definition fetch (req : request) : M response :=
  λ w, match server w (sent (trace w)) req with
       | Rejected reason => (Throw reason, log (Fetch req) w)
       | Resolved r => (Normal r, log (Fetch req) w)
       end.

(** [response.ok]: the status is in the range 200-299. *)
Definition ok (r : response) : bool := (200 <=? status r) && (status r <=? 299).

Definition response_json (r : response) : M js_value := lift (json r).

Definition console_error (e : exn) : M unit :=
  λ w, (Normal tt, log (ConsoleError e) w).

(** [items.forEach(callback)], the callback updating the local [html]; it
    touches neither the DOM nor the network.  Only an array has a callable
    [forEach]. *)
Fixpoint forEach_array (elems : list js_value)
    (callback : js_value → js_string → completion js_string) (html : js_string)
    : completion js_string :=
  match elems with
  | [] => Normal html
  | item :: rest => html' ← callback item html; forEach_array rest callback html'
  end.

Definition forEach (items : js_value)
    (callback : js_value → js_string → completion js_string) (html : js_string)
    : completion js_string :=
  match items with
  | VArray elems => forEach_array elems callback html
  | _ => Throw TypeError
  end.

(** ** The script *)

Definition endpoint : js_string := lit "http://127.0.0.1:5000/api/extract".

Definition extract_request (notes : js_string) : request :=
  {| url := endpoint;
     method := lit "POST";
     headers := [(lit "Content-Type", lit "application/json")];
     body := JSON_stringify (VObject [(lit "notes", VString notes)]) |}.

Definition processing_html : js_string := lit "<p>Processing...</p>".
Definition empty_html : js_string := lit "<p>No action items found.</p>".
Definition error_html : js_string :=
  lit "<p style='color:red;'>Cannot reach Flask server. Make sure it is running.</p>".
Definition table_header : js_string :=
  lit "<table><tr><th>Action</th><th>Assignee</th><th>Deadline</th></tr>".

(** The template literal of lines 27-31, line breaks and indentation
    included. *)
Definition row_template (action assignee deadline : js_string) : js_string :=
  lit "<tr>" ++ LF ++
  lit "                        <td>" ++ action ++ lit "</td>" ++ LF ++
  lit "                        <td>" ++ assignee ++ lit "</td>" ++ LF ++
  lit "                        <td>" ++ deadline ++ lit "</td>" ++ LF ++
  lit "                     </tr>".

Definition append_row (item : js_value) (html : js_string) : completion js_string :=
  action ← get_property item "action" ≫= ToString;
  assignee ← get_property item "assignee" ≫= ToString;
  deadline ← get_property item "deadline" ≫= ToString;
  Normal (html ++ row_template action assignee deadline).

(** The click listener of lines 1-41. *)
Definition on_click : M unit :=
  notesEl ← getElementById "notes";
  notes ← get_value notesEl;
  resultsDiv ← getElementById "results";
  set_innerHTML resultsDiv processing_html;;
  try_catch
    (response ← fetch (extract_request notes);
     if negb (ok response) then throw (Error (lit "Server error")) else
     data ← response_json response;
     items ← lift (get_property data "items");
     len ← lift (get_property items "length");
     if strict_equals_number len (S754_zero false)
     then set_innerHTML resultsDiv empty_html
     else
       html ← lift (forEach items append_row table_header);
       set_innerHTML resultsDiv (html ++ lit "</table>"))
    (λ err,
       console_error err;;
       set_innerHTML resultsDiv error_html).

(** Line 1: the listener is registered on the control. *)
Definition popup_script : M unit :=
  extractBtn ← getElementById "extractBtn";
  addEventListener extractBtn "click".

(** A click on [id] runs the listener once per registration; an exception
    leaving the async listener is an unhandled rejection. *)
Fixpoint dispatch (id : string) (ls : list (string * string)) (w : World) : World :=
  match ls with
  | [] => w
  | l :: rest =>
      if decide (l = (id, "click"%string)) then
        match on_click w with
        | (Normal _, w') => dispatch id rest w'
        | (Throw e, w') => dispatch id rest (log (UnhandledRejection e) w')
        end
      else dispatch id rest w
  end.

Definition click (id : string) (w : World) : World := dispatch id (listeners w) w.

(** The content of the results region. *)
Definition results (w : World) : option js_string := innerHTML <$> dom w !! "results"%string.

(** ** What one activation amounts to

    [render] is the part of the try block that follows [response.json()],
    without its writes: the markup it assigns, or the exception it raises.
    [settle] does the same from the outcome of [fetch]. *)

Definition render (data : js_value) : completion js_string :=
  items ← get_property data "items";
  len ← get_property items "length";
  if strict_equals_number len (S754_zero false) then Normal empty_html
  else html ← forEach items append_row table_header; Normal (html ++ lit "</table>").

Definition settle (fr : fetch_result) : completion js_string :=
  match fr with
  | Rejected reason => Throw reason
  | Resolved r =>
      if negb (ok r) then Throw (Error (lit "Server error"))
      else data ← json r; render data
  end.

Definition final_html (c : completion js_string) : js_string :=
  match c with
  | Normal html => html
  | Throw _ => error_html
  end.

Definition final_events (c : completion js_string) : list event :=
  match c with
  | Normal html => [WriteInnerHTML "results" html]
  | Throw e => [ConsoleError e; WriteInnerHTML "results" error_html]
  end.

(** The world an activation ends in, when the text field holds [notes], the
    results region is [er] and [fetch] settles to [fr]. *)
Definition after_click (w : World) (notes : js_string) (er : element)
    (fr : fetch_result) : World :=
  {| dom := <["results"%string :=
               {| value := value er; innerHTML := final_html (settle fr) |}]> (dom w);
     listeners := listeners w;
     server := server w;
     trace := trace w ++
              [ReadValue "notes"; WriteInnerHTML "results" processing_html;
               Fetch (extract_request notes)] ++
              final_events (settle fr) |}.

(** ** Vocabulary of the properties *)

(** The three ways an activation fails, with the error that is caught: the
    request fails at the network level, the status is not a success, or the
    body does not parse. *)
Inductive failure : fetch_result → exn → Prop :=
  | network_failure (reason : exn) :
      failure (Rejected reason) reason
  | non_success_status (r : response) :
      ok r = false → failure (Resolved r) (Error (lit "Server error"))
  | unparsable_body (r : response) (e : exn) :
      ok r = true → json r = Throw e → failure (Resolved r) e.

Fixpoint is_prefix (p s : js_string) : bool :=
  match p, s with
  | [], _ => true
  | a :: p', b :: s' => (a =? b) && is_prefix p' s'
  | _ :: _, [] => false
  end.

Fixpoint contains (needle hay : js_string) : bool :=
  is_prefix needle hay ||
  match hay with
  | [] => false
  | _ :: rest => contains needle rest
  end.

(** An action item of the data model: an object whose [action], [assignee]
    and [deadline] are strings. *)
Record ActionItem : Type :=
  { action : js_string; assignee : js_string; deadline : js_string }.

Definition as_action_item (v : js_value) : option ActionItem :=
  match v with
  | VObject props =>
      match own_property props (lit "action"),
            own_property props (lit "assignee"),
            own_property props (lit "deadline") with
      | Some (VString a), Some (VString b), Some (VString c) =>
          Some {| action := a; assignee := b; deadline := c |}
      | _, _, _ => None
      end
  | _ => None
  end.

(** The shape the specification expects of a parsed body: [items] is an
    array of action items. *)
Definition has_expected_shape (data : js_value) : bool :=
  match data with
  | VObject props =>
      match own_property props (lit "items") with
      | Some (VArray elems) => forallb (λ v, bool_decide (is_Some (as_action_item v))) elems
      | _ => false
      end
  | _ => false
  end.

(** Bodies whose reading raises a [TypeError]: the body is [null]; [items]
    is missing or [null]; [items] is a number, a boolean, a non-empty string
    or an object whose [length] is not zero, none of which has a [forEach];
    or [items] is an array with a [null] among its elements. *)
Inductive unreadable : js_value → Prop :=
  | body_null :
      unreadable VNull
  | items_missing (data : js_value) :
      get_property data "items" = Normal VUndefined → unreadable data
  | items_null (data : js_value) :
      get_property data "items" = Normal VNull → unreadable data
  | items_number (data : js_value) (n : spec_float) :
      get_property data "items" = Normal (VNumber n) → unreadable data
  | items_boolean (data : js_value) (b : bool) :
      get_property data "items" = Normal (VBool b) → unreadable data
  | items_string (data : js_value) (s : js_string) :
      get_property data "items" = Normal (VString s) → s ≠ [] → unreadable data
  | items_object (data : js_value) (props : list (js_string * js_value)) (len : js_value) :
      get_property data "items" = Normal (VObject props) →
      get_property (VObject props) "length" = Normal len →
      strict_equals_number len (S754_zero false) = false →
      unreadable data
  | items_with_null (data : js_value) (elems : list js_value) :
      get_property data "items" = Normal (VArray elems) →
      VNull ∈ elems → unreadable data.

(** What the results region holds once an activation is over: the error
    message, the empty-state message, or a table. *)
Definition rendered (content : option js_string) : Prop :=
  content = Some error_html ∨
  content = Some empty_html ∨
  ∃ rows, content = Some (table_header ++ rows ++ lit "</table>").

Definition has_elements (w : World) : Prop :=
  is_Some (dom w !! "extractBtn"%string) ∧
  is_Some (dom w !! "notes"%string) ∧
  is_Some (dom w !! "results"%string).

(** Reading a quoted string up to its closing quote gives the string back. *)
Definition reads_back (s : js_string) : Prop :=
  ∀ rest, parse_chars (quote_code_points s ++ DQUOTE ++ rest) = Some (s, rest).

(** ** A page to run the script on *)

Definition decimal (n : N) : js_string := lit (NilZero.string_of_uint (N.to_uint n)).

(** [Number::toString] on the doubles that are integers below 10^21, given
    as a mantissa with a non-negative exponent; the responses of the examples
    hold no other number. *)
Definition integer_toString (x : spec_float) : js_string :=
  match x with
  | S754_zero _ => lit "0"
  | S754_nan => lit "NaN"
  | S754_infinity false => lit "Infinity"
  | S754_infinity true => lit "-Infinity"
  | S754_finite s m e =>
      (if s then lit "-" else []) ++ decimal (Z.to_N (Z.pos m * 2 ^ e))
  end.

Definition sample_page (notes : js_string) : gmap string element :=
  {[ "extractBtn"%string := {| value := []; innerHTML := lit "Extract" |};
     "notes"%string := {| value := notes; innerHTML := [] |};
     "results"%string := {| value := []; innerHTML := [] |} ]}.

(** A freshly opened popup whose server always answers [fr]. *)
Definition sample_world (notes : js_string) (fr : fetch_result) : World :=
  {| dom := sample_page notes; listeners := []; server := λ _ _, fr; trace := [] |}.

Definition object (props : list (string * js_value)) : js_value :=
  VObject (map (λ '(k, v), (lit k, v)) props).

Definition ok_response (data : js_value) : fetch_result :=
  Resolved {| status := 200; json := Normal data |}.

Definition notes_text : js_string := lit "Ship the report by Friday".
Definition notes_field : element := {| value := notes_text; innerHTML := [] |}.
Definition blank_field : element := {| value := []; innerHTML := [] |}.
Definition results_region : element := {| value := []; innerHTML := [] |}.

(** The response of the specification's example. *)
Definition ship_report : js_value :=
  object [("action", VString (lit "Ship report"));
          ("assignee", VString (lit "Alice"));
          ("deadline", VString (lit "2024-01-01"))].


(** The pages of the examples: the server answers 500, an empty list, the
    item of the specification's example, an item without fields, and a list
    holding a null. *)
Definition server_error : response := {| status := 500; json := Throw SyntaxError |}.
Definition world_500 : World := sample_world notes_text (Resolved server_error).

Definition no_items : js_value := object [("items", VArray [])].
Definition world_empty : World := sample_world notes_text (ok_response no_items).
Definition world_blank : World := sample_world [] (ok_response no_items).

Definition one_item : js_value := object [("items", VArray [ship_report])].
Definition world_ship : World := sample_world notes_text (ok_response one_item).

Definition bare_item : js_value := object [("items", VArray [object []])].
Definition world_bare : World := sample_world notes_text (ok_response bare_item).

Definition null_item : js_value := object [("items", VArray [VNull])].
Definition world_null : World := sample_world notes_text (ok_response null_item).

(** ** Beyond the expected shape *)

(** The text a template literal gives a value that is neither a number, an
    array nor an object. *)
Definition primitive_text (v : js_value) : option js_string :=
  match v with
  | VUndefined => Some (lit "undefined")
  | VNull => Some (lit "null")
  | VBool true => Some (lit "true")
  | VBool false => Some (lit "false")
  | VString s => Some s
  | VNumber _ | VArray _ | VObject _ => None
  end.

Definition field_text (item : js_value) (key : string) : option js_string :=
  match get_property item key with
  | Normal v => primitive_text v
  | Throw _ => None
  end.

(** The three cells of the row of [item], when its fields are such values. *)
Definition cells_of (item : js_value) : option ActionItem :=
  a ← field_text item "action";
  b ← field_text item "assignee";
  c ← field_text item "deadline";
  Some {| action := a; assignee := b; deadline := c |}.

(** Every surrogate of the string is half of a pair. *)
Fixpoint well_formed_utf16 (s : js_string) : bool :=
  match s with
  | [] => true
  | c :: rest =>
      if is_leading_surrogate c then
        match rest with
        | d :: rest' => is_trailing_surrogate d && well_formed_utf16 rest'
        | [] => false
        end
      else if is_trailing_surrogate c then false
      else well_formed_utf16 rest
  end.

(** [n] activations, one after the other. *)
Fixpoint activations (n : nat) (w : World) : World :=
  match n with
  | O => w
  | S n' => activations n' (on_click w).2
  end.

(** Pages that lack the text field, the results region or the control, and
    responses outside the expected shape: items with missing, null and
    boolean fields, and [items] the empty string. *)
Definition world_without (id : string) : World :=
  {| dom := delete id (sample_page notes_text);
     listeners := [];
     server := λ _ _, ok_response one_item;
     trace := [] |}.

Definition sparse_items : js_value :=
  object [("items",
           VArray [object [("action", VNull); ("deadline", VBool true)];
                   VString (lit "call Bob")])].
Definition world_sparse : World := sample_world notes_text (ok_response sparse_items).

Definition empty_string_items : js_value := object [("items", VString [])].
Definition world_empty_string : World :=
  sample_world notes_text (ok_response empty_string_items).

(** The contents assigned to [innerHTML], in order. *)
Fixpoint written (t : list event) : list js_string :=
  match t with
  | [] => []
  | WriteInnerHTML _ html :: rest => html :: written rest
  | _ :: rest => written rest
  end.

(** A code unit that is not a surrogate. *)
Definition plain (c : N) : Prop :=
  is_leading_surrogate c = false ∧ is_trailing_surrogate c = false.

(** A printable ASCII code unit. *)
Definition printable (c : N) : Prop := 32 ≤ c < 128.

(** ** Proof steps *)

(** Closes a branch of the symbolic run of the listener. *)
Ltac close_run :=
  unfold log, with_dom, lift;
  cbn [dom trace server listeners final_html final_events];
  rewrite ?lookup_insert_eq; cbn [value];
  rewrite ?insert_insert_eq, <- ?app_assoc; reflexivity.

(** Splits on the comparisons of the goal. *)
Ltac split_tests :=
  repeat match goal with
    | |- context [?a <=? ?b] => destruct (N.leb_spec a b)
    | |- context [?a <? ?b] => destruct (N.ltb_spec a b)
    | |- context [?a =? ?b] => destruct (N.eqb_spec a b)
    end.

(** * Properties *)

Lemma sent_app (t1 t2 : list event) : sent (t1 ++ t2) = sent t1 ++ sent t2.
Proof.
  induction t1 as [|ev t1 IH]; [done|].
  destruct ev; simpl; by rewrite ?IH.
Qed.

Lemma on_click_run (w : World) (en er : element) :
  dom w !! "notes"%string = Some en →
  dom w !! "results"%string = Some er →
  on_click w =
    (Normal tt,
     after_click w (value en) er
       (server w (sent (trace w)) (extract_request (value en)))).
Proof.
  intros Hn Hr.
  set (fr := server w (sent (trace w)) (extract_request (value en))).
  unfold on_click, after_click, mbind, M_bind, getElementById, get_value, set_innerHTML.
  rewrite !Hn. cbn [log dom]. rewrite !Hr. cbn [log dom with_dom].
  unfold try_catch, fetch, throw, lift, response_json, console_error.
  cbn [log dom with_dom trace server listeners].
  rewrite !sent_app. cbn [sent]. rewrite !app_nil_r.
  unfold settle, render, mbind, completion_bind.
  fold fr. destruct fr as [reason|r]; [close_run|].
  destruct (ok r); cbn [negb]; [|close_run].
  destruct (json r) as [data|e]; unfold lift; cbv beta iota; [|close_run].
  destruct (get_property data "items") as [items|e]; [|close_run].
  destruct (get_property items "length") as [len|e]; [|close_run].
  destruct (strict_equals_number len _); [close_run|].
  destruct (forEach items append_row table_header); close_run.
Qed.

(** ** The request body reads back *)

Lemma hex_reassemble (c : N) :
  c < 65536 →
  ((c / 4096 mod 16 * 16 + c / 256 mod 16) * 16 + c / 16 mod 16) * 16 + c mod 16 = c.
Proof.
  intros H.
  replace (c / 4096) with (c / 16 / 16 / 16) by (by rewrite !N.Div0.div_div).
  replace (c / 256) with (c / 16 / 16) by (by rewrite !N.Div0.div_div).
  pose proof (N.div_mod' c 16) as H1.
  pose proof (N.div_mod' (c / 16) 16) as H2.
  pose proof (N.div_mod' (c / 16 / 16) 16) as H3.
  pose proof (N.mod_lt c 16) as L1.
  pose proof (N.mod_lt (c / 16) 16) as L2.
  pose proof (N.mod_lt (c / 16 / 16) 16) as L3.
  assert (c / 16 / 16 / 16 < 16) as L4.
  { rewrite !N.Div0.div_div. apply N.Div0.div_lt_upper_bound. lia. }
  rewrite (N.mod_small (c / 16 / 16 / 16)) by lia.
  lia.
Qed.

Lemma hex_value_digit (d : N) : d < 16 → hex_value (hex_digit d) = Some d.
Proof.
  intros H. unfold hex_value, hex_digit.
  split_tests; cbn [andb]; try lia; f_equal; lia.
Qed.

Lemma parse_chars_cons (c : N) (rest : js_string) :
  parse_chars (c :: rest) =
    if c =? 34 then Some ([], rest)
    else if c =? 92 then
      match rest with
      | [] => None
      | e :: rest' =>
          if e =? 117 then
            match rest' with
            | h1 :: h2 :: h3 :: h4 :: rest'' =>
                d1 ← hex_value h1; d2 ← hex_value h2;
                d3 ← hex_value h3; d4 ← hex_value h4;
                '(str, r) ← parse_chars rest'';
                Some ((((d1 * 16 + d2) * 16 + d3) * 16 + d4) :: str, r)
            | _ => None
            end
          else
            ch ← unescape e;
            '(str, r) ← parse_chars rest';
            Some (ch :: str, r)
      end
    else if c <? 32 then None
    else '(str, r) ← parse_chars rest; Some (c :: str, r).
Proof. reflexivity. Qed.

Lemma parse_UnicodeEscape (c : N) (rest : js_string) :
  c < 65536 →
  parse_chars (UnicodeEscape c ++ rest) =
    '(str, r) ← parse_chars rest; Some (c :: str, r).
Proof.
  intros H. unfold UnicodeEscape.
  change (lit "\u") with [92; 117]. cbn [app].
  rewrite parse_chars_cons.
  change (92 =? 34) with false. change (92 =? 92) with true.
  change (117 =? 117) with true. cbv beta iota.
  rewrite !hex_value_digit by (apply N.mod_lt; lia).
  cbn [mbind option_bind]. rewrite hex_reassemble by done. reflexivity.
Qed.

Lemma parse_simple_escape (e ch : N) (rest : js_string) :
  e ≠ 117 → unescape e = Some ch →
  parse_chars (92 :: e :: rest) = '(str, r) ← parse_chars rest; Some (ch :: str, r).
Proof.
  intros Hu He. rewrite parse_chars_cons.
  change (92 =? 34) with false. change (92 =? 92) with true. cbv beta iota.
  destruct (N.eqb_spec e 117); [done|]. by rewrite He.
Qed.

Lemma parse_plain (c : N) (rest : js_string) :
  c ≠ 34 → c ≠ 92 → 32 ≤ c →
  parse_chars (c :: rest) = '(str, r) ← parse_chars rest; Some (c :: str, r).
Proof.
  intros H34 H92 H32. rewrite parse_chars_cons.
  destruct (N.eqb_spec c 34); [done|]. destruct (N.eqb_spec c 92); [done|].
  destruct (N.ltb_spec c 32); [lia|]. reflexivity.
Qed.

Lemma is_leading_surrogate_range (c : N) :
  is_leading_surrogate c = true → 0xD800 ≤ c ≤ 0xDBFF.
Proof. unfold is_leading_surrogate. rewrite andb_true_iff, !N.leb_le. done. Qed.

Lemma is_trailing_surrogate_range (c : N) :
  is_trailing_surrogate c = true → 0xDC00 ≤ c ≤ 0xDFFF.
Proof. unfold is_trailing_surrogate. rewrite andb_true_iff, !N.leb_le. done. Qed.

Lemma reads_back_cons (c : N) (s : js_string) :
  reads_back s → (∀ d s', s = d :: s' → reads_back s') → reads_back (c :: s).
Proof.
  intros IH IH2 rest. cbn [quote_code_points].
  destruct (N.eqb_spec c 8) as [->|?].
  { change (lit "\b") with [92; 98]. cbn [app].
    rewrite (parse_simple_escape 98 8), IH; done. }
  destruct (N.eqb_spec c 9) as [->|?].
  { change (lit "\t") with [92; 116]. cbn [app].
    rewrite (parse_simple_escape 116 9), IH; done. }
  destruct (N.eqb_spec c 10) as [->|?].
  { change (lit "\n") with [92; 110]. cbn [app].
    rewrite (parse_simple_escape 110 10), IH; done. }
  destruct (N.eqb_spec c 12) as [->|?].
  { change (lit "\f") with [92; 102]. cbn [app].
    rewrite (parse_simple_escape 102 12), IH; done. }
  destruct (N.eqb_spec c 13) as [->|?].
  { change (lit "\r") with [92; 114]. cbn [app].
    rewrite (parse_simple_escape 114 13), IH; done. }
  destruct (N.eqb_spec c 34) as [->|?].
  { change (lit "\") with [92]. change DQUOTE with [34] at 1. cbn [app].
    rewrite (parse_simple_escape 34 34), IH; done. }
  destruct (N.eqb_spec c 92) as [->|?].
  { change (lit "\\") with [92; 92]. cbn [app].
    rewrite (parse_simple_escape 92 92), IH; done. }
  destruct (N.ltb_spec c 32).
  { rewrite <- app_assoc, parse_UnicodeEscape, IH by lia. done. }
  destruct (is_leading_surrogate c) eqn:Hlead.
  { apply is_leading_surrogate_range in Hlead.
    destruct s as [|d s'].
    - rewrite parse_UnicodeEscape by lia.
      change (parse_chars (DQUOTE ++ rest)) with (Some ([] : js_string, rest)). done.
    - destruct (is_trailing_surrogate d) eqn:Htrail.
      + apply is_trailing_surrogate_range in Htrail. cbn [app].
        rewrite parse_plain by lia. rewrite parse_plain by lia.
        rewrite (IH2 d s') by done. done.
      + rewrite <- app_assoc, parse_UnicodeEscape, IH by lia. done. }
  destruct (is_trailing_surrogate c) eqn:Htrail.
  { apply is_trailing_surrogate_range in Htrail.
    rewrite <- app_assoc, parse_UnicodeEscape, IH by lia. done. }
  cbn [app]. rewrite parse_plain, IH by lia. done.
Qed.

Lemma quote_reads_back (s : js_string) : reads_back s.
Proof.
  assert (reads_back s ∧ ∀ c, reads_back (c :: s)) as [? _]; [|done].
  induction s as [|d s [IH1 IH2]].
  - assert (reads_back []) as H0 by (intros rest; reflexivity).
    split; [done|]. intros c. apply reads_back_cons; [done|]. by intros ???.
  - split; [apply IH2|]. intros c. apply reads_back_cons; [apply IH2|].
    intros d' s' [= -> ->]. done.
Qed.

Lemma extract_request_body (notes : js_string) :
  body (extract_request notes) =
    Some (lit "{" ++ QuoteJSONString (lit "notes") ++ lit ":" ++
          QuoteJSONString notes ++ lit "}").
Proof.
  unfold extract_request. cbn [body JSON_stringify join_strings].
  by rewrite <- !app_assoc.
Qed.

Lemma decode_notes_object (notes : js_string) :
  JSON_decode (lit "{" ++ QuoteJSONString (lit "notes") ++ lit ":" ++
               QuoteJSONString notes ++ lit "}") =
    Some (JObject [(lit "notes", JString notes)]).
Proof.
  unfold JSON_decode, QuoteJSONString.
  change (lit "{") with [123]. change (lit ":") with [58]. change (lit "}") with [125].
  change (quote_code_points (lit "notes")) with [110; 111; 116; 101; 115].
  change DQUOTE with [34]. rewrite <- !app_assoc. cbn [app length].
  simpl.
  change (quote_code_points notes ++ [34; 125])
    with (quote_code_points notes ++ DQUOTE ++ [125]).
  rewrite quote_reads_back. reflexivity.
Qed.

(** ** The claims *)

Lemma results_after_click (w : World) (notes : js_string) (er : element)
    (fr : fetch_result) :
  results (after_click w notes er fr) = Some (final_html (settle fr)).
Proof. unfold results, after_click. cbn [dom]. by rewrite lookup_insert_eq. Qed.

Lemma settle_failure (fr : fetch_result) (err : exn) :
  failure fr err → settle fr = Throw err.
Proof.
  intros [reason|r Hok|r e Hok Hjson]; cbn [settle]; [done|by rewrite Hok|].
  by rewrite Hok, Hjson.
Qed.

(** C1: when the request fails at the network level, or the response has a
    non-success status, or its body does not parse as JSON, the activation
    ends normally after logging the caught error to the console and then
    writing the fixed, styled error message to the results region; the final
    content is the same message for the three kinds of failure. *)
Theorem failure_shows_fixed_error (w : World) (en er : element)
    (fr : fetch_result) (err : exn) :
  dom w !! "notes"%string = Some en →
  dom w !! "results"%string = Some er →
  server w (sent (trace w)) (extract_request (value en)) = fr →
  failure fr err →
  (on_click w).1 = Normal tt ∧
  trace (on_click w).2 =
    trace w ++
    [ReadValue "notes"; WriteInnerHTML "results" processing_html;
     Fetch (extract_request (value en));
     ConsoleError err;
     WriteInnerHTML "results" error_html] ∧
  results (on_click w).2 =
    Some (lit "<p style='color:red;'>Cannot reach Flask server. Make sure it is running.</p>").
Proof.
  intros Hn Hr Hfr Hfail.
  rewrite (on_click_run w en er Hn Hr), Hfr. cbn [fst snd].
  rewrite results_after_click. unfold after_click. cbn [trace].
  by rewrite (settle_failure fr err Hfail).
Qed.

Lemma settle_ok (r : response) (data : js_value) :
  ok r = true → json r = Normal data → settle (Resolved r) = render data.
Proof. intros Hok Hjson. cbn [settle]. by rewrite Hok, Hjson. Qed.

(** C3: a 2xx response whose body parses as JSON with [items] the empty
    array leaves the results region holding exactly the paragraph with the
    text "No action items found.", which has no table element. *)
Theorem empty_items_message (w : World) (en er : element) (r : response)
    (data : js_value) :
  dom w !! "notes"%string = Some en →
  dom w !! "results"%string = Some er →
  server w (sent (trace w)) (extract_request (value en)) = Resolved r →
  ok r = true →
  json r = Normal data →
  get_property data "items" = Normal (VArray []) →
  (on_click w).1 = Normal tt ∧
  results (on_click w).2 =
    Some (lit "<p>" ++ lit "No action items found." ++ lit "</p>") ∧
  ∀ html, results (on_click w).2 = Some html → contains (lit "<table") html = false.
Proof.
  intros Hn Hr Hfr Hok Hjson Hitems.
  rewrite (on_click_run w en er Hn Hr), Hfr. cbn [fst snd].
  rewrite results_after_click, (settle_ok r data Hok Hjson).
  unfold render. rewrite Hitems. cbn.
  split; [done|]. split; [done|]. by intros html [= <-].
Qed.

Lemma append_row_action_item (item : js_value) (a : ActionItem) (html : js_string) :
  as_action_item item = Some a →
  append_row item html =
    Normal (html ++ row_template (action a) (assignee a) (deadline a)).
Proof.
  unfold as_action_item, append_row. intros H.
  destruct item as [| | | | |?|props]; try done. cbn [get_property].
  destruct (own_property props (lit "action")) as [[]|]; try done.
  destruct (own_property props (lit "assignee")) as [[]|]; try done.
  destruct (own_property props (lit "deadline")) as [[]|]; try done.
  by injection H as <-.
Qed.

Lemma forEach_action_items (elems : list js_value) (rows : list ActionItem)
    (html : js_string) :
  Forall2 (λ item a, as_action_item item = Some a) elems rows →
  forEach_array elems append_row html =
    Normal (html ++
            concat (map (λ a, row_template (action a) (assignee a) (deadline a)) rows)).
Proof.
  intros H. revert html.
  induction H as [|item a elems rows Ha _ IH]; intros html; cbn [forEach_array map concat].
  - by rewrite app_nil_r.
  - rewrite (append_row_action_item item a html Ha). unfold mbind, completion_bind.
    by rewrite IH, <- app_assoc.
Qed.

Lemma length_not_zero (n : nat) :
  n ≠ O → strict_equals_number (VNumber (number_of_nat n)) (S754_zero false) = false.
Proof. by destruct n. Qed.

(** C4: a 2xx response whose body parses as JSON with a non-empty [items]
    array of action items (objects whose [action], [assignee] and [deadline]
    are strings, the data model of the specification) leaves the results
    region holding the table: the header row Action, Assignee, Deadline, then
    exactly one row per item in the order of the response, each with the
    three values inserted as they are, in that column order. *)
Theorem items_render_as_table (w : World) (en er : element) (r : response)
    (data : js_value) (elems : list js_value) (rows : list ActionItem) :
  dom w !! "notes"%string = Some en →
  dom w !! "results"%string = Some er →
  server w (sent (trace w)) (extract_request (value en)) = Resolved r →
  ok r = true →
  json r = Normal data →
  get_property data "items" = Normal (VArray elems) →
  elems ≠ [] →
  mapM as_action_item elems = Some rows →
  (on_click w).1 = Normal tt ∧
  length rows = length elems ∧
  results (on_click w).2 =
    Some (lit "<table><tr><th>Action</th><th>Assignee</th><th>Deadline</th></tr>" ++
          concat (map (λ a, lit "<tr>" ++ LF ++
                            lit "                        <td>" ++ action a ++ lit "</td>" ++ LF ++
                            lit "                        <td>" ++ assignee a ++ lit "</td>" ++ LF ++
                            lit "                        <td>" ++ deadline a ++ lit "</td>" ++ LF ++
                            lit "                     </tr>") rows) ++
          lit "</table>").
Proof.
  intros Hn Hr Hfr Hok Hjson Hitems Hne Hrows.
  apply mapM_Some_1 in Hrows.
  rewrite (on_click_run w en er Hn Hr), Hfr. cbn [fst snd].
  rewrite results_after_click, (settle_ok r data Hok Hjson).
  unfold render. rewrite Hitems. unfold mbind, completion_bind.
  cbn [get_property]. rewrite decide_True by done.
  rewrite length_not_zero by (by destruct elems).
  cbn [forEach]. rewrite (forEach_action_items elems rows table_header Hrows).
  cbn [final_html]. rewrite <- app_assoc.
  split; [done|]. split; [|done].
  symmetry. by eapply Forall2_length.
Qed.

Lemma sent_final_events (c : completion js_string) : sent (final_events c) = [].
Proof. by destruct c. Qed.

(** C5: an activation sends exactly one request: a POST to
    http://127.0.0.1:5000/api/extract with the header
    Content-Type: application/json, whose body decodes as JSON to the object
    with the one member [notes], the value of the text field when the control
    was activated. *)
Theorem one_request_with_the_notes (w : World) (en er : element) :
  dom w !! "notes"%string = Some en →
  dom w !! "results"%string = Some er →
  ∃ req b,
    sent (trace (on_click w).2) = sent (trace w) ++ [req] ∧
    url req = lit "http://127.0.0.1:5000/api/extract" ∧
    method req = lit "POST" ∧
    headers req = [(lit "Content-Type", lit "application/json")] ∧
    body req = Some b ∧
    JSON_decode b = Some (JObject [(lit "notes", JString (value en))]).
Proof.
  intros Hn Hr. eexists (extract_request (value en)), _.
  rewrite (on_click_run w en er Hn Hr). cbn [fst snd after_click trace].
  rewrite sent_app. cbn [app sent]. rewrite sent_final_events.
  split; [done|]. split; [done|]. split; [done|]. split; [done|].
  split; [apply extract_request_body|apply decode_notes_object].
Qed.

(** C6: on every activation the results region is set to the "processing"
    placeholder before the request goes out: the placeholder is written, then
    the request is sent, and whatever path the activation takes afterwards
    sends nothing more. *)
Theorem processing_precedes_request (w : World) (en er : element) :
  dom w !! "notes"%string = Some en →
  dom w !! "results"%string = Some er →
  ∃ rest,
    trace (on_click w).2 =
      trace w ++
      [ReadValue "notes";
       WriteInnerHTML "results" (lit "<p>Processing...</p>");
       Fetch (extract_request (value en))] ++ rest ∧
    sent rest = [].
Proof.
  intros Hn Hr. rewrite (on_click_run w en er Hn Hr). cbn [snd after_click trace].
  eexists. split; [done|]. apply sent_final_events.
Qed.

(** The content an activation ends with is a function of what [fetch]
    settles to. *)
Lemma results_determined (w : World) (en er : element) :
  dom w !! "notes"%string = Some en →
  dom w !! "results"%string = Some er →
  results (on_click w).2 =
    Some (final_html (settle (server w (sent (trace w)) (extract_request (value en))))).
Proof.
  intros Hn Hr. rewrite (on_click_run w en er Hn Hr). apply results_after_click.
Qed.

Lemma after_click_notes (w : World) (notes : js_string) (er : element)
    (fr : fetch_result) :
  dom (after_click w notes er fr) !! "notes"%string = dom w !! "notes"%string.
Proof. unfold after_click. cbn [dom]. by rewrite lookup_insert_ne. Qed.

Lemma after_click_results (w : World) (notes : js_string) (er : element)
    (fr : fetch_result) :
  dom (after_click w notes er fr) !! "results"%string =
    Some {| value := value er; innerHTML := final_html (settle fr) |}.
Proof. unfold after_click. cbn [dom]. by rewrite lookup_insert_eq. Qed.

(** C7: two activations in succession, with the same notes and a server that
    answers the second request as it answered the first, leave the same
    content in the results region; and the content an activation leaves is a
    function of the value of the text field and of what the request settles
    to, nothing being carried from one activation to the next: any page,
    whatever its earlier content, its listeners and the requests sent so far,
    whose text field holds the same notes and whose request settles alike,
    ends with the same content. *)
Theorem same_input_same_rendering (w : World) (en er : element) :
  dom w !! "notes"%string = Some en →
  dom w !! "results"%string = Some er →
  server w (sent (trace (on_click w).2)) (extract_request (value en)) =
    server w (sent (trace w)) (extract_request (value en)) →
  results (on_click (on_click w).2).2 = results (on_click w).2 ∧
  ∀ (w' : World) (en' er' : element),
    dom w' !! "notes"%string = Some en' →
    dom w' !! "results"%string = Some er' →
    value en' = value en →
    server w' (sent (trace w')) (extract_request (value en')) =
      server w (sent (trace w)) (extract_request (value en)) →
    results (on_click w').2 = results (on_click w).2.
Proof.
  intros Hn Hr. rewrite (results_determined w en er Hn Hr).
  rewrite (on_click_run w en er Hn Hr). cbn [snd]. intros Hstable. split.
  - erewrite results_determined.
    + cbn [after_click server]. by rewrite Hstable.
    + by rewrite after_click_notes.
    + apply after_click_results.
  - intros w' en' er' Hn' Hr' _ Hsame.
    by rewrite (results_determined w' en' er' Hn' Hr'), Hsame.
Qed.

(** C8: the empty string is sent like any other value: with an empty text
    field the request goes out with the body {"notes":""}, and the response
    is handled as the same response to any other notes would be. *)
Theorem empty_notes_are_sent (w : World) (en er : element) :
  dom w !! "notes"%string = Some en →
  dom w !! "results"%string = Some er →
  value en = [] →
  sent (trace (on_click w).2) = sent (trace w) ++ [extract_request []] ∧
  body (extract_request []) =
    Some (lit "{" ++ DQUOTE ++ lit "notes" ++ DQUOTE ++ lit ":" ++
          DQUOTE ++ DQUOTE ++ lit "}") ∧
  ∀ (w' : World) (en' er' : element),
    dom w' !! "notes"%string = Some en' →
    dom w' !! "results"%string = Some er' →
    server w' (sent (trace w')) (extract_request (value en')) =
      server w (sent (trace w)) (extract_request []) →
    results (on_click w').2 = results (on_click w).2.
Proof.
  intros Hn Hr Hempty. split; [|split; [done|]].
  - rewrite (on_click_run w en er Hn Hr), Hempty. cbn [snd after_click trace].
    rewrite sent_app. cbn [app sent]. by rewrite sent_final_events.
  - intros w' en' er' Hn' Hr' Hsame.
    rewrite (results_determined w' en' er' Hn' Hr'), Hsame.
    by rewrite (results_determined w en er Hn Hr), Hempty.
Qed.

Lemma elem_of_final_events (ev : event) (c : completion js_string) :
  ev ∈ final_events c →
  (∃ e, ev = ConsoleError e) ∨ (∃ html, ev = WriteInnerHTML "results" html).
Proof.
  destruct c as [html|e]; cbn [final_events]; rewrite ?elem_of_cons, elem_of_nil.
  - intros [->|[]]. right. by eexists.
  - intros [->|[->|[]]]; [left|right]; by eexists.
Qed.

(** C10: an activation writes to the results region only: every other
    element, the text field with its value among them, is as it was, the
    results region keeps everything but its content, no listener is added,
    and the text field is read once, first thing. *)
Theorem only_results_is_written (w : World) (en er : element) :
  dom w !! "notes"%string = Some en →
  dom w !! "results"%string = Some er →
  (∀ id, id ≠ "results"%string → dom (on_click w).2 !! id = dom w !! id) ∧
  value <$> dom (on_click w).2 !! "results"%string = Some (value er) ∧
  listeners (on_click w).2 = listeners w ∧
  ∃ evs,
    trace (on_click w).2 = trace w ++ ReadValue "notes" :: evs ∧
    (∀ id, ReadValue id ∉ evs) ∧
    (∀ id html, WriteInnerHTML id html ∈ evs → id = "results"%string).
Proof.
  intros Hn Hr. rewrite (on_click_run w en er Hn Hr). cbn [snd].
  split; [|split; [|split]].
  - intros id Hid. unfold after_click. cbn [dom]. by rewrite lookup_insert_ne.
  - by rewrite after_click_results.
  - done.
  - unfold after_click. cbn [trace app]. eexists. split; [done|]. split.
    + intros id. rewrite !elem_of_cons. intros [?|[?|Hin]]; [done..|].
      apply elem_of_final_events in Hin as [[? ?]|[? ?]]; done.
    + intros id html. rewrite !elem_of_cons.
      intros [[= -> _]|[?|Hin]]; [done..|].
      apply elem_of_final_events in Hin as [[? ?]|[? [= -> _]]]; done.
Qed.

(** Induction on values, through the elements of arrays and the properties
    of objects. *)
Lemma js_value_nested_ind (P : js_value → Prop) :
  P VUndefined → P VNull → (∀ b, P (VBool b)) → (∀ n, P (VNumber n)) →
  (∀ s, P (VString s)) →
  (∀ elems, Forall P elems → P (VArray elems)) →
  (∀ props, Forall (λ kv, P kv.2) props → P (VObject props)) →
  ∀ v, P v.
Proof.
  intros Hu Hn Hb Hnum Hs Ha Ho.
  fix IH 1. intros [| |b|n|s|elems|props]; [done..| |].
  - apply Ha. induction elems as [|x elems IHl]; constructor; [apply IH|apply IHl].
  - apply Ho. induction props as [|[k x] props IHl]; constructor; [apply IH|apply IHl].
Qed.

Lemma join_with_TypeError (conv : js_value → completion js_string)
    (l : list js_value) (e : exn) :
  Forall (λ x, ∀ e, conv x = Throw e → e = TypeError) l →
  join_with conv l = Throw e → e = TypeError.
Proof.
  intros H. revert e.
  induction H as [|x rest Hx _ IH]; intros e; [done|].
  cbn [join_with]. unfold mbind, completion_bind.
  destruct (conv x) as [s|e0] eqn:Hc; [|intros [= <-]; by apply Hx].
  destruct rest as [|y rest]; [done|].
  fold (join_with conv (y :: rest)).
  destruct (join_with conv (y :: rest)) as [r|e0]; [done|].
  intros [= <-]. by apply IH.
Qed.

Lemma ToString_TypeError (v : js_value) (e : exn) :
  ToString v = Throw e → e = TypeError.
Proof.
  revert e. induction v as [| |b|n|s|elems IH|props _] using js_value_nested_ind;
    intros e; cbn [ToString]; try done.
  - by destruct b.
  - apply join_with_TypeError.
    eapply Forall_impl; [exact IH|]. intros x Hx e'. cbv beta.
    destruct x; try done; apply Hx.
  - destruct (own_property props (lit "toString")); [by intros [= <-]|done].
Qed.

Lemma get_property_TypeError (v : js_value) (key : string) (e : exn) :
  get_property v key = Throw e → e = TypeError.
Proof. destruct v; cbn [get_property]; try case_decide; by try intros [= <-]. Qed.

Lemma append_row_cases (item : js_value) (html : js_string) :
  append_row item html = Throw TypeError ∨
  ∃ row, append_row item html = Normal (html ++ row).
Proof.
  assert (∀ key, get_property item key ≫= ToString = Throw TypeError ∨
                 ∃ s, get_property item key ≫= ToString = Normal s) as Hfield.
  { intros key. unfold mbind, completion_bind.
    destruct (get_property item key) as [v|e] eqn:Hget.
    - destruct (ToString v) as [s|e] eqn:Hs; [by eauto|].
      left. by rewrite (ToString_TypeError v e Hs).
    - left. by rewrite (get_property_TypeError item key e Hget). }
  unfold append_row.
  destruct (Hfield "action"%string) as [->|[a ->]]; [by left|].
  destruct (Hfield "assignee"%string) as [->|[b ->]]; [by left|].
  destruct (Hfield "deadline"%string) as [->|[c ->]]; [by left|].
  right. by eexists.
Qed.

Lemma forEach_array_cases (elems : list js_value) (html : js_string) :
  forEach_array elems append_row html = Throw TypeError ∨
  ∃ rows, forEach_array elems append_row html = Normal (html ++ rows).
Proof.
  revert html. induction elems as [|item elems IH]; intros html; cbn [forEach_array].
  - right. exists []. by rewrite app_nil_r.
  - destruct (append_row_cases item html) as [->|[row ->]]; [by left|].
    unfold mbind, completion_bind.
    destruct (IH (html ++ row)) as [->|[rows ->]]; [by left|].
    right. exists (row ++ rows). by rewrite app_assoc.
Qed.

Lemma forEach_array_null (elems : list js_value) (html : js_string) :
  VNull ∈ elems → forEach_array elems append_row html = Throw TypeError.
Proof.
  revert html. induction elems as [|item elems IH]; intros html Hin.
  - by apply elem_of_nil in Hin.
  - cbn [forEach_array]. apply elem_of_cons in Hin as [<-|Hin]; [done|].
    destruct (append_row_cases item html) as [->|[row ->]]; [done|].
    unfold mbind, completion_bind. by apply IH.
Qed.

Lemma render_unreadable (data : js_value) :
  unreadable data → render data = Throw TypeError.
Proof.
  intros [|? H|? H|? ? H|? ? H|? s H Hs|? props len H Hlen Hzero|? elems H Hin];
    unfold render; rewrite ?H; unfold mbind, completion_bind; try done.
  - cbn [get_property]. rewrite decide_True by done.
    rewrite length_not_zero by (by destruct s). done.
  - rewrite Hlen, Hzero. done.
  - cbn [get_property]. rewrite decide_True by done.
    rewrite length_not_zero by (destruct elems; [by apply elem_of_nil in Hin|done]).
    cbn [forEach]. by rewrite forEach_array_null.
Qed.

Lemma unreadable_lacks_shape (data : js_value) :
  unreadable data → has_expected_shape data = false.
Proof.
  intros Hbad. destruct data as [| | | | | |ps]; try done. cbn [has_expected_shape].
  destruct (own_property ps (lit "items")) as [[| | | | |elems|]|] eqn:Hitems; try done.
  assert (VNull ∈ elems) as Hin.
  { inversion Hbad as [|? H|? H|? ? H|? ? H|? ? H|? ? ? H|? ? H Hin];
      cbn [get_property] in H; rewrite Hitems in H; by simplify_eq/=. }
  apply not_true_is_false. intros Hall.
  rewrite forallb_forall in Hall. apply list_elem_of_In, Hall in Hin.
  apply bool_decide_eq_true in Hin as [? ?]. done.
Qed.

(** C2, as the code has it: a 2xx response whose body parses as JSON but
    cannot be read (the body is null; [items] is missing, null, a number, a
    boolean, a non-empty string or an object whose length is not 0; or
    [items] is an array holding a null) takes the failure path: the
    [TypeError] is logged and the fixed error message is displayed.  Such a
    body lacks the expected shape. *)
Theorem unreadable_body_shows_error (w : World) (en er : element) (r : response)
    (data : js_value) :
  dom w !! "notes"%string = Some en →
  dom w !! "results"%string = Some er →
  server w (sent (trace w)) (extract_request (value en)) = Resolved r →
  ok r = true →
  json r = Normal data →
  unreadable data →
  has_expected_shape data = false ∧
  (on_click w).1 = Normal tt ∧
  trace (on_click w).2 =
    trace w ++
    [ReadValue "notes"; WriteInnerHTML "results" processing_html;
     Fetch (extract_request (value en));
     ConsoleError TypeError;
     WriteInnerHTML "results" error_html] ∧
  results (on_click w).2 = Some error_html.
Proof.
  intros Hn Hr Hfr Hok Hjson Hbad.
  split; [by apply unreadable_lacks_shape|].
  rewrite (on_click_run w en er Hn Hr), Hfr. cbn [fst snd].
  rewrite results_after_click. unfold after_click. cbn [trace].
  by rewrite (settle_ok r data Hok Hjson), (render_unreadable data Hbad).
Qed.

Lemma render_rendered (data : js_value) (html : js_string) :
  render data = Normal html →
  html = empty_html ∨ ∃ rows, html = table_header ++ rows ++ lit "</table>".
Proof.
  unfold render, mbind, completion_bind.
  destruct (get_property data "items") as [items|]; [|done].
  destruct (get_property items "length") as [len|]; [|done].
  destruct (strict_equals_number len _); [intros [= <-]; by left|].
  destruct items as [| | | | |elems|]; try done. cbn [forEach].
  destruct (forEach_array_cases elems table_header) as [->|[rows ->]]; [done|].
  intros H. right. exists rows. rewrite app_assoc. congruence.
Qed.

Lemma settle_rendered (fr : fetch_result) : rendered (Some (final_html (settle fr))).
Proof.
  destruct (settle fr) as [html|e] eqn:Hs; cbn [final_html]; [|by left].
  destruct fr as [|r]; [done|]. cbn [settle] in Hs.
  destruct (ok r); [|done]. cbn [negb] in Hs.
  destruct (json r) as [data|]; [|done].
  destruct (render_rendered data html Hs) as [->|[rows ->]]; [right; by left|].
  right; right. by eexists.
Qed.

(** One run of the listener on a page that has the elements. *)
Lemma on_click_safe (w : World) :
  has_elements w →
  (on_click w).1 = Normal tt ∧
  has_elements (on_click w).2 ∧
  rendered (results (on_click w).2) ∧
  listeners (on_click w).2 = listeners w ∧
  ∀ e, UnhandledRejection e ∈ trace (on_click w).2 → UnhandledRejection e ∈ trace w.
Proof.
  intros (Hb & [en Hn] & [er Hr]). rewrite (on_click_run w en er Hn Hr). cbn [fst snd].
  split; [done|]. split; [|split; [|split; [done|]]].
  - unfold has_elements. rewrite after_click_notes, after_click_results, Hn.
    unfold after_click. cbn [dom]. rewrite lookup_insert_ne by done. eauto.
  - rewrite results_after_click. apply settle_rendered.
  - intros e. unfold after_click. cbn [trace app].
    rewrite elem_of_app, !elem_of_cons.
    intros [?|[?|[?|[?|Hin]]]]; [done..|].
    apply elem_of_final_events in Hin as [[? ?]|[? ?]]; done.
Qed.

Lemma dispatch_safe (id : string) (ls : list (string * string)) (w : World) :
  has_elements w →
  has_elements (dispatch id ls w) ∧
  (results (dispatch id ls w) = results w ∨ rendered (results (dispatch id ls w))) ∧
  ∀ e, UnhandledRejection e ∈ trace (dispatch id ls w) → UnhandledRejection e ∈ trace w.
Proof.
  revert w. induction ls as [|l ls IH]; intros w Hw; cbn [dispatch]; [by auto|].
  case_decide; [|by apply IH].
  destruct (on_click_safe w Hw) as (Hnormal & Hw' & Hrendered & _ & Htrace).
  destruct (on_click w) as [[[]|e] w']; cbn [fst snd] in *; [|done].
  destruct (IH w' Hw') as (Hw'' & Hres & Htrace'').
  split; [done|]. split; [|by auto].
  right. destruct Hres as [->|?]; done.
Qed.

Lemma dispatch_app (id : string) (l1 l2 : list (string * string)) (w : World) :
  dispatch id (l1 ++ l2) w = dispatch id l2 (dispatch id l1 w).
Proof.
  revert w. induction l1 as [|l l1 IH]; intros w; cbn [app dispatch]; [done|].
  case_decide; [|done]. by destruct (on_click w) as [[|] ?].
Qed.

Lemma popup_script_run (w : World) :
  has_elements w →
  popup_script w =
    (Normal tt,
     {| dom := dom w; listeners := listeners w ++ [("extractBtn", "click")]%string;
        server := server w; trace := trace w |}).
Proof.
  intros ([eb Hb] & _). unfold popup_script, mbind, M_bind, getElementById.
  by rewrite Hb.
Qed.

(** C9: on a page that has the control, the text field and the results
    region, the script registers its listener without an exception, every run
    of the listener completes normally, and a click on the control leaves no
    unhandled rejection and the results region holding the rendered output
    (the empty-state message or a table) or the error message.  The promises
    the listener awaits are taken to settle. *)
Theorem no_exception_escapes (w : World) :
  has_elements w →
  (popup_script w).1 = Normal tt ∧
  (∀ w1, has_elements w1 →
         (on_click w1).1 = Normal tt ∧ rendered (results (on_click w1).2)) ∧
  (∀ e, UnhandledRejection e ∈ trace (click "extractBtn" (popup_script w).2) →
        UnhandledRejection e ∈ trace w) ∧
  rendered (results (click "extractBtn" (popup_script w).2)).
Proof.
  intros Hw. rewrite (popup_script_run w Hw). cbn [fst snd].
  split; [done|]. split.
  { intros w1 Hw1. destruct (on_click_safe w1 Hw1) as (? & _ & ? & _). done. }
  unfold click. cbn [listeners]. rewrite dispatch_app.
  set (w0 := {| dom := dom w; listeners := _; server := server w; trace := trace w |}).
  assert (has_elements w0) as Hw0 by done.
  destruct (dispatch_safe "extractBtn" (listeners w) w0 Hw0) as (Hw1 & _ & Htrace1).
  set (w1 := dispatch "extractBtn" (listeners w) w0) in *.
  cbn [dispatch]. rewrite decide_True by done.
  destruct (on_click_safe w1 Hw1) as (Hnormal & _ & Hrendered & _ & Htrace2).
  destruct (on_click w1) as [[[]|e] w2]; cbn [fst snd] in *; [|done].
  split; [|done]. intros e He. by apply Htrace1, Htrace2.
Qed.

(** ** Further properties of the script *)

(** X1: when the text field or the results region is missing, the listener
    throws a [TypeError] before it enters the try block: the exception
    leaves the listener, the DOM is as it was, no request is sent and
    nothing is logged. *)
Theorem missing_element_escapes (w : World) :
  dom w !! "notes"%string = None ∨ dom w !! "results"%string = None →
  (on_click w).1 = Throw TypeError ∧
  dom (on_click w).2 = dom w ∧
  sent (trace (on_click w).2) = sent (trace w) ∧
  ∀ e, ConsoleError e ∈ trace (on_click w).2 → ConsoleError e ∈ trace w.
Proof.
  intros Hmissing.
  destruct (dom w !! "notes"%string) as [en|] eqn:Hn.
  - destruct Hmissing as [?|Hr]; [done|].
    unfold on_click, mbind, M_bind, getElementById, get_value, set_innerHTML.
    rewrite !Hn. cbn [log dom]. rewrite !Hr. cbn [fst snd]. unfold log. cbn [dom trace].
    rewrite sent_app. cbn [sent]. rewrite app_nil_r.
    split; [done|]. split; [done|]. split; [done|].
    intros e. rewrite elem_of_app, list_elem_of_singleton. by intros [?|?].
  - unfold on_click, mbind, M_bind, getElementById, get_value.
    rewrite !Hn. done.
Qed.

(** X2: when the control is missing the script throws a [TypeError] and
    registers no listener, so a click on a page without listeners changes
    nothing. *)
Theorem missing_control_registers_nothing (w : World) :
  dom w !! "extractBtn"%string = None →
  popup_script w = (Throw TypeError, w) ∧
  (listeners w = [] → ∀ id, click id (popup_script w).2 = w).
Proof.
  intros Hb. unfold popup_script, mbind, M_bind, getElementById, addEventListener.
  rewrite Hb. split; [done|]. intros Hl id. cbn [snd]. unfold click. by rewrite Hl.
Qed.

(** X3: whatever [items] is, when its [length] is strictly equal to 0
    nothing else of it is looked at: the empty string and an object whose
    [length] is a zero of either sign give the empty-state message, as the
    empty array does, and nothing is logged. *)
Theorem zero_length_shows_empty_state (w : World) (en er : element) (r : response)
    (data items : js_value) :
  dom w !! "notes"%string = Some en →
  dom w !! "results"%string = Some er →
  server w (sent (trace w)) (extract_request (value en)) = Resolved r →
  ok r = true →
  json r = Normal data →
  get_property data "items" = Normal items →
  (items = VArray [] ∨ items = VString [] ∨
   ∃ props sign, items = VObject props ∧
                 own_property props (lit "length") = Some (VNumber (S754_zero sign))) →
  results (on_click w).2 = Some empty_html ∧
  ∀ e, ConsoleError e ∈ trace (on_click w).2 → ConsoleError e ∈ trace w.
Proof.
  intros Hn Hr Hfr Hok Hjson Hitems Hzero.
  assert (settle (Resolved r) = Normal empty_html) as Hsettle.
  { rewrite (settle_ok r data Hok Hjson). unfold render. rewrite Hitems.
    unfold mbind, completion_bind.
    destruct Hzero as [->|[->|(props & sign & -> & Hlen)]]; [done..|].
    cbn [get_property]. rewrite Hlen. by destruct sign. }
  rewrite (on_click_run w en er Hn Hr), Hfr. cbn [snd].
  rewrite results_after_click, Hsettle. split; [done|].
  intros e. unfold after_click. cbn [trace]. rewrite Hsettle. cbn [final_events app].
  rewrite elem_of_app, !elem_of_cons, elem_of_nil. by intros [?|[?|[?|[?|[?|?]]]]].
Qed.

(** X5: two notes with the same request body are the same notes: the
    escapes of [JSON.stringify] never make two texts collide. *)
Theorem request_body_determines_notes (notes1 notes2 : js_string) :
  body (extract_request notes1) = body (extract_request notes2) →
  notes1 = notes2.
Proof.
  rewrite !extract_request_body. intros Hbody. apply (inj Some) in Hbody.
  pose proof (decode_notes_object notes1) as H1.
  rewrite Hbody, decode_notes_object in H1. congruence.
Qed.

(** X6: activations are neither suppressed nor merged: [n] activations in a
    row end with the text field as it was and with [n] more requests sent,
    all for the same notes. *)
Theorem every_activation_sends (n : nat) (w : World) (en er : element) :
  dom w !! "notes"%string = Some en →
  dom w !! "results"%string = Some er →
  dom (activations n w) !! "notes"%string = Some en ∧
  is_Some (dom (activations n w) !! "results"%string) ∧
  sent (trace (activations n w)) =
    sent (trace w) ++ replicate n (extract_request (value en)).
Proof.
  revert w er. induction n as [|n IH]; intros w er Hn Hr; cbn [activations replicate].
  - rewrite app_nil_r. eauto.
  - rewrite (on_click_run w en er Hn Hr). cbn [snd].
    set (fr := server w _ _).
    destruct (IH (after_click w (value en) er fr)
                {| value := value er; innerHTML := final_html (settle fr) |})
      as (Hn' & Hr' & Hsent).
    { by rewrite after_click_notes. }
    { apply after_click_results. }
    split; [done|]. split; [done|]. rewrite Hsent.
    unfold after_click. cbn [trace]. rewrite sent_app. cbn [app sent].
    by rewrite sent_final_events, <- app_assoc.
Qed.

Lemma render_not_a_message (data : js_value) (html : js_string) :
  render data = Normal html → html ≠ error_html ∧ html ≠ processing_html.
Proof.
  intros Hrender. destruct (render_rendered data html Hrender) as [->|[rows ->]].
  - split; intros H; vm_compute in H; discriminate H.
  - change table_header with (60 :: 116 :: tl (tl table_header)).
    split; intros H; vm_compute in H; discriminate H.
Qed.

Lemma settle_Normal (fr : fetch_result) (html : js_string) :
  settle fr = Normal html → ∃ data, render data = Normal html.
Proof.
  destruct fr as [|r]; [done|]. cbn [settle].
  destruct (ok r); [|done]. cbn [negb].
  destruct (json r) as [data|]; [|done]. by exists data.
Qed.

(** X7: an activation never ends with the placeholder on display: the
    content it leaves is not the "processing" paragraph. *)
Theorem placeholder_is_replaced (w : World) (en er : element) :
  dom w !! "notes"%string = Some en →
  dom w !! "results"%string = Some er →
  results (on_click w).2 ≠ Some processing_html.
Proof.
  intros Hn Hr. rewrite (results_determined w en er Hn Hr).
  destruct (settle _) as [html|e] eqn:Hsettle; cbn [final_html].
  - apply settle_Normal in Hsettle as [data Hrender].
    apply render_not_a_message in Hrender as [_ Hne]. congruence.
  - intros H. vm_compute in H. discriminate H.
Qed.

(** X8: an activation assigns the results region twice, the placeholder and
    then the content that stays, and that content is the error message
    exactly when an error was logged. *)
Theorem error_shown_iff_logged (w : World) (en er : element) :
  dom w !! "notes"%string = Some en →
  dom w !! "results"%string = Some er →
  ∃ evs final,
    trace (on_click w).2 = trace w ++ evs ∧
    written evs = [processing_html; final] ∧
    results (on_click w).2 = Some final ∧
    ((∃ e, ConsoleError e ∈ evs) ↔ final = error_html).
Proof.
  intros Hn Hr. rewrite (on_click_run w en er Hn Hr). cbn [snd].
  rewrite results_after_click. unfold after_click. cbn [trace].
  destruct (settle _) as [html|e] eqn:Hsettle; cbn [final_html final_events];
    eexists _, _; (split; [done|]); (split; [done|]); (split; [done|]).
  - apply settle_Normal in Hsettle as [data Hrender].
    apply render_not_a_message in Hrender as [Hne _].
    split; [|done]. intros [e He]. cbn [app] in He.
    rewrite !elem_of_cons, elem_of_nil in He. by destruct He as [?|[?|[?|[?|?]]]].
  - split; [done|]. intros _. exists e. cbn [app]. rewrite !elem_of_cons. auto.
Qed.

Lemma action_items_of (elems : list js_value) :
  forallb (λ v, bool_decide (is_Some (as_action_item v))) elems = true →
  ∃ rows, Forall2 (λ item a, as_action_item item = Some a) elems rows.
Proof.
  induction elems as [|item elems IH]; cbn [forallb]; [by exists []|].
  rewrite andb_true_iff, bool_decide_eq_true. intros [[a Ha] Hrest].
  destruct (IH Hrest) as [rows Hrows]. exists (a :: rows). by constructor.
Qed.

(** X9: a body of the expected shape is never rejected: whatever its items,
    the activation logs nothing and does not show the error message. *)
Theorem expected_shape_is_rendered (w : World) (en er : element) (r : response)
    (data : js_value) :
  dom w !! "notes"%string = Some en →
  dom w !! "results"%string = Some er →
  server w (sent (trace w)) (extract_request (value en)) = Resolved r →
  ok r = true →
  json r = Normal data →
  has_expected_shape data = true →
  results (on_click w).2 ≠ Some error_html ∧
  ∀ e, ConsoleError e ∈ trace (on_click w).2 → ConsoleError e ∈ trace w.
Proof.
  intros Hn Hr Hfr Hok Hjson Hshape.
  assert (∃ html, render data = Normal html) as [html Hrender].
  { destruct data as [| | | | | |props]; try done. cbn [has_expected_shape] in Hshape.
    unfold render, mbind, completion_bind. cbn [get_property].
    destruct (own_property props (lit "items")) as [[| | | | |elems|]|]; try done.
    cbn [default from_option id get_property]. rewrite decide_True by done.
    destruct (action_items_of elems Hshape) as [rows Hrows].
    destruct elems as [|item elems]; [by eexists|].
    rewrite length_not_zero by done. cbn [forEach].
    rewrite (forEach_action_items _ rows table_header Hrows). by eexists. }
  rewrite (on_click_run w en er Hn Hr), Hfr. cbn [snd].
  rewrite results_after_click. unfold after_click. cbn [trace].
  rewrite (settle_ok r data Hok Hjson), Hrender. cbn [final_html final_events].
  apply render_not_a_message in Hrender as [Hne _].
  split; [congruence|]. intros e. cbn [app].
  rewrite elem_of_app, !elem_of_cons, elem_of_nil. by intros [?|[?|[?|[?|[?|?]]]]].
Qed.

Lemma primitive_text_ToString (v : js_value) (text : js_string) :
  primitive_text v = Some text → ToString v = Normal text.
Proof. destruct v as [| |[]| | | |]; cbn; congruence. Qed.

Lemma field_text_ToString (item : js_value) (key : string) (text : js_string) :
  field_text item key = Some text →
  get_property item key ≫= ToString = Normal text.
Proof.
  unfold field_text, mbind, completion_bind.
  destruct (get_property item key); [apply primitive_text_ToString|done].
Qed.

Lemma append_row_cells (item : js_value) (row : ActionItem) (html : js_string) :
  cells_of item = Some row →
  append_row item html =
    Normal (html ++ row_template (action row) (assignee row) (deadline row)).
Proof.
  unfold cells_of, append_row. intros H.
  destruct (field_text item "action") as [a|] eqn:Ha; [|done].
  destruct (field_text item "assignee") as [b|] eqn:Hb; [|done].
  destruct (field_text item "deadline") as [c|] eqn:Hc; [|done].
  cbn in H. injection H as <-.
  by rewrite (field_text_ToString _ _ _ Ha), (field_text_ToString _ _ _ Hb),
    (field_text_ToString _ _ _ Hc).
Qed.

Lemma forEach_cells (elems : list js_value) (rows : list ActionItem) (html : js_string) :
  Forall2 (λ item row, cells_of item = Some row) elems rows →
  forEach_array elems append_row html =
    Normal (html ++
            concat (map (λ a, row_template (action a) (assignee a) (deadline a)) rows)).
Proof.
  intros H. revert html.
  induction H as [|item row elems rows Hrow _ IH]; intros html; cbn [forEach_array map concat].
  - by rewrite app_nil_r.
  - rewrite (append_row_cells item row html Hrow). unfold mbind, completion_bind.
    by rewrite IH, <- app_assoc.
Qed.

(** X10: items outside the expected shape are rendered all the same when
    their fields are not numbers, arrays or objects: a missing field gives
    the cell "undefined", a null field "null", a boolean "true" or "false",
    and an item that is a string, a number, a boolean or an array gives
    three "undefined" cells. *)
Theorem loose_items_render_as_text (w : World) (en er : element) (r : response)
    (data : js_value) (elems : list js_value) (rows : list ActionItem) :
  dom w !! "notes"%string = Some en →
  dom w !! "results"%string = Some er →
  server w (sent (trace w)) (extract_request (value en)) = Resolved r →
  ok r = true →
  json r = Normal data →
  get_property data "items" = Normal (VArray elems) →
  elems ≠ [] →
  mapM cells_of elems = Some rows →
  results (on_click w).2 =
    Some (table_header ++
          concat (map (λ a, row_template (action a) (assignee a) (deadline a)) rows) ++
          lit "</table>").
Proof.
  intros Hn Hr Hfr Hok Hjson Hitems Hne Hrows.
  apply mapM_Some_1 in Hrows.
  rewrite (results_determined w en er Hn Hr), Hfr, (settle_ok r data Hok Hjson).
  unfold render. rewrite Hitems. unfold mbind, completion_bind.
  cbn [get_property]. rewrite decide_True by done.
  rewrite length_not_zero by (by destruct elems).
  cbn [forEach]. rewrite (forEach_cells elems rows table_header Hrows).
  cbn [final_html]. by rewrite <- app_assoc.
Qed.

Lemma printable_plain (c : N) : printable c → plain c.
Proof.
  unfold printable, plain, is_leading_surrogate, is_trailing_surrogate.
  intros ?. rewrite !andb_false_iff, !N.leb_gt. lia.
Qed.

Lemma well_formed_plain_app (chunk rest : js_string) :
  Forall plain chunk →
  well_formed_utf16 (chunk ++ rest) = well_formed_utf16 rest.
Proof.
  induction 1 as [|c chunk [Hlead Htrail] _ IH]; [done|].
  cbn [app well_formed_utf16]. by rewrite Hlead, Htrail.
Qed.

Lemma hex_digit_printable (d : N) : d < 16 → printable (hex_digit d).
Proof. unfold printable, hex_digit. intros ?. split_tests; lia. Qed.

Lemma UnicodeEscape_printable (c : N) : Forall printable (UnicodeEscape c).
Proof.
  unfold UnicodeEscape. change (lit "\u") with [92; 117].
  repeat constructor; try (unfold printable; lia);
    apply hex_digit_printable, N.mod_lt; lia.
Qed.

(** What [QuoteJSONString] writes for the first code point of a string: an
    escape in printable ASCII, a surrogate pair, or the code unit itself. *)
Lemma quote_code_points_cons (c : N) (s : js_string) :
  (∃ chunk, Forall printable chunk ∧
            quote_code_points (c :: s) = chunk ++ quote_code_points s) ∨
  (∃ d s', s = d :: s' ∧ is_leading_surrogate c = true ∧
           is_trailing_surrogate d = true ∧
           quote_code_points (c :: s) = c :: d :: quote_code_points s') ∨
  (plain c ∧ 32 ≤ c ∧ quote_code_points (c :: s) = c :: quote_code_points s).
Proof.
  cbn [quote_code_points].
  destruct (N.eqb_spec c 8).
  { left. exists [92; 98]. split; [repeat constructor; unfold printable; lia|done]. }
  destruct (N.eqb_spec c 9).
  { left. exists [92; 116]. split; [repeat constructor; unfold printable; lia|done]. }
  destruct (N.eqb_spec c 10).
  { left. exists [92; 110]. split; [repeat constructor; unfold printable; lia|done]. }
  destruct (N.eqb_spec c 12).
  { left. exists [92; 102]. split; [repeat constructor; unfold printable; lia|done]. }
  destruct (N.eqb_spec c 13).
  { left. exists [92; 114]. split; [repeat constructor; unfold printable; lia|done]. }
  destruct (N.eqb_spec c 34).
  { left. exists [92; 34]. split; [repeat constructor; unfold printable; lia|done]. }
  destruct (N.eqb_spec c 92).
  { left. exists [92; 92]. split; [repeat constructor; unfold printable; lia|done]. }
  destruct (N.ltb_spec c 32).
  { left. eexists. split; [apply UnicodeEscape_printable|done]. }
  destruct (is_leading_surrogate c) eqn:Hlead.
  { destruct s as [|d s'].
    - left. exists (UnicodeEscape c). split; [apply UnicodeEscape_printable|].
      by rewrite app_nil_r.
    - destruct (is_trailing_surrogate d) eqn:Htrail.
      + right; left. by exists d, s'.
      + left. eexists. split; [apply UnicodeEscape_printable|done]. }
  destruct (is_trailing_surrogate c) eqn:Htrail.
  { left. eexists. split; [apply UnicodeEscape_printable|done]. }
  right; right. split; [done|]. split; [lia|done].
Qed.

Lemma list_pair_ind (P : js_string → Prop) :
  P [] →
  (∀ c s, P s → (∀ d s', s = d :: s' → P s') → P (c :: s)) →
  ∀ s, P s.
Proof.
  intros Hnil Hcons s.
  assert (P s ∧ ∀ c, P (c :: s)) as [? _]; [|done].
  induction s as [|d s [IH1 IH2]].
  - split; [done|]. intros c. apply Hcons; [done|]. by intros ???.
  - split; [apply IH2|]. intros c. apply Hcons; [apply IH2|].
    intros d' s' [= -> ->]. done.
Qed.

Lemma quote_code_points_safe (s : js_string) :
  (∀ rest, well_formed_utf16 (quote_code_points s ++ rest) = well_formed_utf16 rest) ∧
  Forall (λ c, 32 ≤ c) (quote_code_points s).
Proof.
  induction s as [|c s [IHwf IHctl] IH2] using list_pair_ind; [done|].
  destruct (quote_code_points_cons c s)
    as [(chunk & Hchunk & ->)|[(d & s' & -> & Hlead & Htrail & ->)|(Hplain & Hc & ->)]].
  - split.
    + intros rest. rewrite <- app_assoc, well_formed_plain_app; [done|].
      eapply Forall_impl; [exact Hchunk|]. apply printable_plain.
    + apply Forall_app. split; [|done].
      eapply Forall_impl; [exact Hchunk|]. by intros ? [? _].
  - destruct (IH2 d s' eq_refl) as [IHwf' IHctl'].
    apply is_leading_surrogate_range in Hlead as Hc.
    apply is_trailing_surrogate_range in Htrail as Hd. split.
    + intros rest. cbn [app well_formed_utf16]. by rewrite Hlead, Htrail, IHwf'.
    + repeat constructor; [lia..|done].
  - split.
    + intros rest. change ((c :: quote_code_points s) ++ rest)
        with ([c] ++ quote_code_points s ++ rest).
      rewrite well_formed_plain_app by (by constructor). apply IHwf.
    + by constructor.
Qed.

(** X11: whatever the notes, the request body is well-formed UTF-16 (a lone
    surrogate of the notes is written as an escape) and holds no control
    character, so that sending it as UTF-8 alters nothing. *)
Theorem request_body_is_well_formed (notes : js_string) :
  ∃ b, body (extract_request notes) = Some b ∧
       well_formed_utf16 b = true ∧
       Forall (λ c, 32 ≤ c) b.
Proof.
  eexists. split; [apply extract_request_body|].
  destruct (quote_code_points_safe notes) as [Hwf Hctl].
  unfold QuoteJSONString. rewrite <- !app_assoc.
  change (lit "{" ++ DQUOTE ++ quote_code_points (lit "notes") ++ DQUOTE ++ lit ":" ++
          DQUOTE ++ quote_code_points notes ++ DQUOTE ++ lit "}")
    with ([123; 34; 110; 111; 116; 101; 115; 34; 58; 34] ++
          quote_code_points notes ++ [34; 125]).
  split.
  - rewrite (well_formed_plain_app [123; 34; 110; 111; 116; 101; 115; 34; 58; 34])
      by (repeat constructor; apply printable_plain; unfold printable; lia).
    by rewrite Hwf.
  - apply Forall_app. split; [repeat constructor; lia|].
    apply Forall_app. split; [done|]. repeat constructor; lia.
Qed.

End WithNumberToString.

(** ** The claims on a concrete page *)

Lemma failure_shows_fixed_error_witness :
  (on_click integer_toString world_500).1 = Normal tt ∧
  trace (on_click integer_toString world_500).2 =
    [ReadValue "notes"; WriteInnerHTML "results" processing_html;
     Fetch (extract_request integer_toString notes_text);
     ConsoleError (Error (lit "Server error"));
     WriteInnerHTML "results" error_html] ∧
  results (on_click integer_toString world_500).2 =
    Some (lit "<p style='color:red;'>Cannot reach Flask server. Make sure it is running.</p>").
Proof.
  apply (failure_shows_fixed_error integer_toString world_500 notes_field
           results_region (Resolved server_error) (Error (lit "Server error"))).
  - vm_compute. reflexivity.
  - vm_compute. reflexivity.
  - reflexivity.
  - apply non_success_status. reflexivity.
Defined.

(** The body [{"items":[{}]}] lacks the expected shape, and the activation
    renders it as a table of "undefined" cells: nothing is logged and the
    error message is not shown. *)
Lemma bare_item_is_rendered :
  has_expected_shape bare_item = false ∧
  ok {| status := 200; json := Normal bare_item |} = true ∧
  (on_click integer_toString world_bare).1 = Normal tt ∧
  sent (trace (on_click integer_toString world_bare).2) =
    [extract_request integer_toString notes_text] ∧
  (∀ e, ConsoleError e ∉ trace (on_click integer_toString world_bare).2) ∧
  results (on_click integer_toString world_bare).2 =
    Some (table_header ++
          row_template (lit "undefined") (lit "undefined") (lit "undefined") ++
          lit "</table>") ∧
  results (on_click integer_toString world_bare).2 ≠ Some error_html.
Proof.
  split; [reflexivity|]. split; [reflexivity|]. split; [reflexivity|].
  split; [reflexivity|]. split; [|split; [reflexivity|]].
  - intros e He. vm_compute in He.
    repeat (apply elem_of_cons in He as [He|He]; [discriminate He|]).
    by apply elem_of_nil in He.
  - intros H. vm_compute in H. discriminate H.
Qed.

Lemma unreadable_body_shows_error_witness :
  has_expected_shape null_item = false ∧
  (on_click integer_toString world_null).1 = Normal tt ∧
  trace (on_click integer_toString world_null).2 =
    [ReadValue "notes"; WriteInnerHTML "results" processing_html;
     Fetch (extract_request integer_toString notes_text);
     ConsoleError TypeError;
     WriteInnerHTML "results" error_html] ∧
  results (on_click integer_toString world_null).2 = Some error_html.
Proof.
  apply (unreadable_body_shows_error integer_toString world_null notes_field
           results_region {| status := 200; json := Normal null_item |} null_item).
  - vm_compute. reflexivity.
  - vm_compute. reflexivity.
  - reflexivity.
  - reflexivity.
  - reflexivity.
  - apply (items_with_null null_item [VNull]); [reflexivity|].
    apply list_elem_of_In. simpl. left. reflexivity.
Defined.

Lemma empty_items_message_witness :
  (on_click integer_toString world_empty).1 = Normal tt ∧
  results (on_click integer_toString world_empty).2 =
    Some (lit "<p>" ++ lit "No action items found." ++ lit "</p>") ∧
  ∀ html, results (on_click integer_toString world_empty).2 = Some html →
          contains (lit "<table") html = false.
Proof.
  apply (empty_items_message integer_toString world_empty notes_field results_region
           {| status := 200; json := Normal no_items |} no_items).
  - vm_compute. reflexivity.
  - vm_compute. reflexivity.
  - reflexivity.
  - reflexivity.
  - reflexivity.
  - vm_compute. reflexivity.
Defined.

Lemma items_render_as_table_witness :
  (on_click integer_toString world_ship).1 = Normal tt ∧
  length [{| action := lit "Ship report"; assignee := lit "Alice";
             deadline := lit "2024-01-01" |}] = length [ship_report] ∧
  results (on_click integer_toString world_ship).2 =
    Some (lit "<table><tr><th>Action</th><th>Assignee</th><th>Deadline</th></tr>" ++
          (lit "<tr>" ++ LF ++
           lit "                        <td>Ship report</td>" ++ LF ++
           lit "                        <td>Alice</td>" ++ LF ++
           lit "                        <td>2024-01-01</td>" ++ LF ++
           lit "                     </tr>") ++
          lit "</table>").
Proof.
  apply (items_render_as_table integer_toString world_ship notes_field results_region
           {| status := 200; json := Normal one_item |} one_item [ship_report]
           [{| action := lit "Ship report"; assignee := lit "Alice";
               deadline := lit "2024-01-01" |}]).
  - vm_compute. reflexivity.
  - vm_compute. reflexivity.
  - reflexivity.
  - reflexivity.
  - reflexivity.
  - vm_compute. reflexivity.
  - discriminate.
  - vm_compute. reflexivity.
Defined.

Lemma one_request_with_the_notes_witness :
  ∃ req b,
    sent (trace (on_click integer_toString world_ship).2) = sent (trace world_ship) ++ [req] ∧
    url req = lit "http://127.0.0.1:5000/api/extract" ∧
    method req = lit "POST" ∧
    headers req = [(lit "Content-Type", lit "application/json")] ∧
    body req = Some b ∧
    JSON_decode b = Some (JObject [(lit "notes", JString (value notes_field))]).
Proof.
  apply (one_request_with_the_notes integer_toString world_ship notes_field results_region).
  - vm_compute. reflexivity.
  - vm_compute. reflexivity.
Defined.

Lemma processing_precedes_request_witness :
  ∃ rest,
    trace (on_click integer_toString world_500).2 =
      trace world_500 ++
      [ReadValue "notes";
       WriteInnerHTML "results" (lit "<p>Processing...</p>");
       Fetch (extract_request integer_toString (value notes_field))] ++ rest ∧
    sent rest = [].
Proof.
  apply (processing_precedes_request integer_toString world_500 notes_field results_region).
  - vm_compute. reflexivity.
  - vm_compute. reflexivity.
Defined.

Lemma same_input_same_rendering_witness :
  results (on_click integer_toString (on_click integer_toString world_ship).2).2 =
    results (on_click integer_toString world_ship).2 ∧
  ∀ (w' : World) (en' er' : element),
    dom w' !! "notes"%string = Some en' →
    dom w' !! "results"%string = Some er' →
    value en' = value notes_field →
    server w' (sent (trace w')) (extract_request integer_toString (value en')) =
      server world_ship (sent (trace world_ship))
        (extract_request integer_toString (value notes_field)) →
    results (on_click integer_toString w').2 =
      results (on_click integer_toString world_ship).2.
Proof.
  apply (same_input_same_rendering integer_toString world_ship notes_field results_region).
  - vm_compute. reflexivity.
  - vm_compute. reflexivity.
  - reflexivity.
Defined.

Lemma empty_notes_are_sent_witness :
  sent (trace (on_click integer_toString world_blank).2) =
    sent (trace world_blank) ++ [extract_request integer_toString []] ∧
  body (extract_request integer_toString []) =
    Some (lit "{" ++ DQUOTE ++ lit "notes" ++ DQUOTE ++ lit ":" ++
          DQUOTE ++ DQUOTE ++ lit "}") ∧
  ∀ (w' : World) (en' er' : element),
    dom w' !! "notes"%string = Some en' →
    dom w' !! "results"%string = Some er' →
    server w' (sent (trace w')) (extract_request integer_toString (value en')) =
      server world_blank (sent (trace world_blank)) (extract_request integer_toString []) →
    results (on_click integer_toString w').2 =
      results (on_click integer_toString world_blank).2.
Proof.
  apply (empty_notes_are_sent integer_toString world_blank blank_field results_region).
  - vm_compute. reflexivity.
  - vm_compute. reflexivity.
  - reflexivity.
Defined.

Lemma no_exception_escapes_witness :
  (popup_script world_ship).1 = Normal tt ∧
  (∀ w1, has_elements w1 →
         (on_click integer_toString w1).1 = Normal tt ∧
         rendered (results (on_click integer_toString w1).2)) ∧
  (∀ e, UnhandledRejection e ∈
          trace (click integer_toString "extractBtn"
                   (popup_script world_ship).2) →
        UnhandledRejection e ∈ trace world_ship) ∧
  rendered (results (click integer_toString "extractBtn"
                       (popup_script world_ship).2)).
Proof.
  apply (no_exception_escapes integer_toString world_ship).
  unfold has_elements. repeat split; eexists; vm_compute; reflexivity.
Defined.

Lemma only_results_is_written_witness :
  (∀ id, id ≠ "results"%string →
         dom (on_click integer_toString world_ship).2 !! id = dom world_ship !! id) ∧
  value <$> dom (on_click integer_toString world_ship).2 !! "results"%string =
    Some (value results_region) ∧
  listeners (on_click integer_toString world_ship).2 = listeners world_ship ∧
  ∃ evs,
    trace (on_click integer_toString world_ship).2 =
      trace world_ship ++ ReadValue "notes" :: evs ∧
    (∀ id, ReadValue id ∉ evs) ∧
    (∀ id html, WriteInnerHTML id html ∈ evs → id = "results"%string).
Proof.
  apply (only_results_is_written integer_toString world_ship notes_field results_region).
  - vm_compute. reflexivity.
  - vm_compute. reflexivity.
Defined.

(** ** The further properties on a concrete page *)

Lemma missing_element_escapes_witness :
  (on_click integer_toString (world_without "results")).1 = Throw TypeError ∧
  dom (on_click integer_toString (world_without "results")).2 =
    dom (world_without "results") ∧
  sent (trace (on_click integer_toString (world_without "results")).2) =
    sent (trace (world_without "results")) ∧
  ∀ e, ConsoleError e ∈ trace (on_click integer_toString (world_without "results")).2 →
       ConsoleError e ∈ trace (world_without "results").
Proof.
  apply (missing_element_escapes integer_toString (world_without "results")).
  right. vm_compute. reflexivity.
Defined.

Lemma missing_control_registers_nothing_witness :
  popup_script (world_without "extractBtn") =
    (Throw TypeError, world_without "extractBtn") ∧
  (listeners (world_without "extractBtn") = [] →
   ∀ id, click integer_toString id (popup_script (world_without "extractBtn")).2 =
         world_without "extractBtn").
Proof.
  apply (missing_control_registers_nothing integer_toString (world_without "extractBtn")).
  vm_compute. reflexivity.
Defined.

Lemma zero_length_shows_empty_state_witness :
  results (on_click integer_toString world_empty_string).2 = Some empty_html ∧
  ∀ e, ConsoleError e ∈ trace (on_click integer_toString world_empty_string).2 →
       ConsoleError e ∈ trace world_empty_string.
Proof.
  apply (zero_length_shows_empty_state integer_toString world_empty_string notes_field
           results_region {| status := 200; json := Normal empty_string_items |}
           empty_string_items (VString [])).
  - vm_compute. reflexivity.
  - vm_compute. reflexivity.
  - reflexivity.
  - reflexivity.
  - reflexivity.
  - vm_compute. reflexivity.
  - right. left. reflexivity.
Defined.

Lemma request_body_determines_notes_witness :
  body (extract_request integer_toString notes_text) =
    body (extract_request integer_toString notes_text) ∧
  notes_text = notes_text.
Proof.
  split; [reflexivity|].
  apply (request_body_determines_notes integer_toString notes_text notes_text).
  reflexivity.
Defined.

Lemma every_activation_sends_witness :
  dom (activations integer_toString 3 world_ship) !! "notes"%string = Some notes_field ∧
  is_Some (dom (activations integer_toString 3 world_ship) !! "results"%string) ∧
  sent (trace (activations integer_toString 3 world_ship)) =
    sent (trace world_ship) ++
    replicate 3 (extract_request integer_toString (value notes_field)).
Proof.
  apply (every_activation_sends integer_toString 3 world_ship notes_field results_region).
  - vm_compute. reflexivity.
  - vm_compute. reflexivity.
Defined.

Lemma placeholder_is_replaced_witness :
  results (on_click integer_toString world_500).2 ≠ Some processing_html.
Proof.
  apply (placeholder_is_replaced integer_toString world_500 notes_field results_region).
  - vm_compute. reflexivity.
  - vm_compute. reflexivity.
Defined.

Lemma error_shown_iff_logged_witness :
  ∃ evs final,
    trace (on_click integer_toString world_500).2 = trace world_500 ++ evs ∧
    written evs = [processing_html; final] ∧
    results (on_click integer_toString world_500).2 = Some final ∧
    ((∃ e, ConsoleError e ∈ evs) ↔ final = error_html).
Proof.
  apply (error_shown_iff_logged integer_toString world_500 notes_field results_region).
  - vm_compute. reflexivity.
  - vm_compute. reflexivity.
Defined.

Lemma expected_shape_is_rendered_witness :
  results (on_click integer_toString world_ship).2 ≠ Some error_html ∧
  ∀ e, ConsoleError e ∈ trace (on_click integer_toString world_ship).2 →
       ConsoleError e ∈ trace world_ship.
Proof.
  apply (expected_shape_is_rendered integer_toString world_ship notes_field results_region
           {| status := 200; json := Normal one_item |} one_item).
  - vm_compute. reflexivity.
  - vm_compute. reflexivity.
  - reflexivity.
  - reflexivity.
  - reflexivity.
  - vm_compute. reflexivity.
Defined.

Lemma loose_items_render_as_text_witness :
  results (on_click integer_toString world_sparse).2 =
    Some (table_header ++
          concat (map (λ a, row_template (action a) (assignee a) (deadline a))
                    [{| action := lit "null"; assignee := lit "undefined";
                        deadline := lit "true" |};
                     {| action := lit "undefined"; assignee := lit "undefined";
                        deadline := lit "undefined" |}]) ++
          lit "</table>").
Proof.
  apply (loose_items_render_as_text integer_toString world_sparse notes_field results_region
           {| status := 200; json := Normal sparse_items |} sparse_items
           [object [("action", VNull); ("deadline", VBool true)]; VString (lit "call Bob")]).
  - vm_compute. reflexivity.
  - vm_compute. reflexivity.
  - reflexivity.
  - reflexivity.
  - reflexivity.
  - vm_compute. reflexivity.
  - discriminate.
  - vm_compute. reflexivity.
Defined.
